(** * ember-simple-auth-auth0: the application-route mixin

    A shallow embedding of [addon/mixins/application-route-mixin.js]: the
    session-lifecycle scheduler that keeps a renew timer and an expire timer
    on the Ember run loop, and the promise chains that run when they fire.

    - JavaScript numbers (seconds, milliseconds) are integers in [Z].
    - The route object's timer properties are a finite map from property
      name to timer handle, so that [this.jobName], [this._renewJob] and
      [set(this, jobName, job)] read and write the property they name.
    - The run loop is the list of pending timers; [later] adds one under a
      fresh handle, [cancel] removes the one whose handle it is given.
    - A promise is the computation that settles it: a function from the
      world to a settlement and the world at that moment. The session and
      the clock may change while a promise is unsettled; the hook and the
      provider return them as they are when the promise settles.
    - A method runs in one piece. What the session service fires on the
      route in the meantime ([sessionAuthenticated], [sessionInvalidated])
      is an operation of its own, see [Op].
    - A computed property is memoised: [_jwtRemainingTimeInSeconds] is
      declared [computed('_expiresAt', ...)] and [_expiresAt] is declared
      on [session.{data.authenticated,isAuthenticated}], so a read returns
      the value of the last computation until one of those two session
      properties has been set since. The session carries the count of such
      sets ([revision]); the route keeps the memoised value with the
      revision it was computed at. *)

From stdpp Require Import gmap strings list.
From Stdlib Require Import ZArith Lia.

Local Open Scope Z_scope.

(** ** Promises *)

(** How a promise ends: fulfilled, rejected, or never settled. *)
Inductive Settlement : Set :=
  | Resolved
  | Rejected
  | Pending.

(** ** External collaborators *)

(** The session service as the mixin reads it: [session.isAuthenticated]
    and the opaque blob [session.data.authenticated]; [revision] counts
    how often either of the two has been set, which is what tells a
    computed property that depends on them to compute anew. *)
Record Session (D : Type) : Type := mkSession {
  isAuthenticated : bool;
  data_authenticated : D;
  revision : nat
}.
Arguments mkSession {D}.
Arguments isAuthenticated {D}.
Arguments data_authenticated {D}.
Arguments revision {D}.

(** What lies outside the route: the session service and the clock read by
    [now()] (in seconds). It may change at every suspension point. *)
Record Ext (D : Type) : Type := mkExt {
  session : Session D;
  now : Z
}.
Arguments mkExt {D}.
Arguments session {D}.
Arguments now {D}.

(** The [auth0] service options the mixin reads, and the two environment
    probes of [_setupFutureEvents]. *)
Record Config : Set := mkConfig {
  silentAuthRenewSeconds : Z;
  silentAuthOnSessionExpire : bool;
  inTesting : bool;
  FastBoot_defined : bool          (* typeof FastBoot !== 'undefined' *)
}.

(** The functions the mixin calls but does not define.
    [getSessionExpiration] is [utils/get-session-expiration]; its result
    is [None] when it yields [null] or [undefined].
    [authenticate] is [session.authenticate(authenticator)]: the settlement
    of the promise it returns, and the outside world when it settles.
    [beforeSessionExpired] is the overridable hook of the mixin. *)
Record Env (D : Type) : Type := mkEnv {
  getSessionExpiration : D -> option Z;
  authenticate : string -> Ext D -> Settlement * Ext D;
  beforeSessionExpired : Ext D -> Settlement * Ext D
}.
Arguments mkEnv {D}.
Arguments getSessionExpiration {D}.
Arguments authenticate {D}.
Arguments beforeSessionExpired {D}.

(** The mixin's own [beforeSessionExpired]: [return resolve()]. *)
Definition default_beforeSessionExpired {D : Type} (e : Ext D)
  : Settlement * Ext D :=
  (Resolved, e).

(** ** The run loop and the route object *)

(** The two methods the mixin hands to [later]. *)
Inductive JobFn : Set :=
  | ProcessSessionRenewed
  | ProcessSessionExpired.

#[global] Instance JobFn_eq_dec : EqDecision JobFn.
Proof. solve_decision. Defined.

(** A pending timer of the run loop. *)
Record Timer : Set := mkTimer {
  timer_id : nat;
  timer_fn : JobFn;
  timer_wait : Z                   (* milliseconds *)
}.

(** Calls that the mixin makes on the hook and on the session service,
    in the order they are made. *)
Inductive Call : Set :=
  | CallBeforeSessionExpired
  | CallAuthenticate (authenticator : string)
  | CallInvalidate.

#[global] Instance Call_eq_dec : EqDecision Call.
Proof. solve_decision. Defined.

(** Methods of the base mixin of ember-simple-auth that the mixin hands
    on to with [this._super(...arguments)]. *)
Inductive BaseCall : Set :=
  | SuperSessionAuthenticated
  | SuperSessionInvalidated.

#[global] Instance BaseCall_eq_dec : EqDecision BaseCall.
Proof. solve_decision. Defined.

Record World (D : Type) : Type := mkWorld {
  ext : Ext D;
  props : gmap string nat;         (* this[name], for the timer handles *)
  timers : list Timer;             (* pending timers, oldest first *)
  next_timer : nat;                (* the handle [later] returns next *)
  calls : list Call;
  remaining_memo : option (nat * Z);
    (* the memoised [_jwtRemainingTimeInSeconds]: the session revision it
       was computed at, and its value *)
  base_calls : list BaseCall       (* the [_super] calls, in order *)
}.
Arguments mkWorld {D}.
Arguments ext {D}.
Arguments props {D}.
Arguments timers {D}.
Arguments next_timer {D}.
Arguments calls {D}.
Arguments remaining_memo {D}.
Arguments base_calls {D}.

Definition set_ext {D : Type} (e : Ext D) (w : World D) : World D :=
  mkWorld e (props w) (timers w) (next_timer w) (calls w)
          (remaining_memo w) (base_calls w).

Definition record_call {D : Type} (c : Call) (w : World D) : World D :=
  mkWorld (ext w) (props w) (timers w) (next_timer w) (calls w ++ [c])
          (remaining_memo w) (base_calls w).

(** [this._super(...arguments)]: the base method is called; what it does
    happens outside the mixin. *)
Definition call_super {D : Type} (b : BaseCall) (w : World D) : World D :=
  mkWorld (ext w) (props w) (timers w) (next_timer w) (calls w)
          (remaining_memo w) (base_calls w ++ [b]).

(** The value of [_jwtRemainingTimeInSeconds] is memoised at the present
    revision of the session. *)
Definition memoise {D : Type} (remaining : Z) (w : World D) : World D :=
  mkWorld (ext w) (props w) (timers w) (next_timer w) (calls w)
          (Some (revision (session (ext w)), remaining)) (base_calls w).

(** The memoised value that a read returns as it is, if there is one:
    the one computed at the present revision of the session. *)
Definition memoised {D : Type} (w : World D) : option Z :=
  match remaining_memo w with
  | Some (rev, remaining) =>
      if decide (rev = revision (session (ext w))) then Some remaining
      else None
  | None => None
  end.

(** [cancel(timer)]: removes the pending timer with that handle; a handle
    that is [undefined], already fired or already cancelled changes
    nothing. *)
Definition cancel {D : Type} (timer : option nat) (w : World D) : World D :=
  match timer with
  | None => w
  | Some h =>
      mkWorld (ext w) (props w)
              (filter (fun t => timer_id t ≠ h) (timers w))
              (next_timer w) (calls w) (remaining_memo w) (base_calls w)
  end.

(** [later(this, fn, wait)]: a new pending timer; returns its handle. *)
Definition later {D : Type} (fn : JobFn) (wait : Z) (w : World D)
  : nat * World D :=
  (next_timer w,
   mkWorld (ext w) (props w)
           (timers w ++ [mkTimer (next_timer w) fn wait])
           (S (next_timer w)) (calls w) (remaining_memo w) (base_calls w)).

(** [set(this, name, value)]. *)
Definition set_prop {D : Type} (name : string) (value : nat) (w : World D)
  : World D :=
  mkWorld (ext w) (<[name := value]> (props w)) (timers w)
          (next_timer w) (calls w) (remaining_memo w) (base_calls w).

(** [this[name]]: [None] is [undefined]. *)
Definition get_prop {D : Type} (name : string) (w : World D) : option nat :=
  props w !! name.

(** ** Promise plumbing *)

Definition Async (D : Type) : Type := World D -> Settlement * World D.

(** [RSVP.resolve()]. *)
Definition RSVP_resolve {D : Type} : Async D := fun w => (Resolved, w).

(** [RSVP.reject()], as the [reject] callback of a promise constructor. *)
Definition RSVP_reject {D : Type} : Async D := fun w => (Rejected, w).

(** A handler that is a plain method returning [undefined]. *)
Definition handler {D : Type} (f : World D -> World D) : Async D :=
  fun w => (Resolved, f w).

(** [p.then(onFulfilled, onRejected)]. *)
Definition then2 {D : Type} (p onFulfilled onRejected : Async D) : Async D :=
  fun w =>
    match p w with
    | (Resolved, w1) => onFulfilled w1
    | (Rejected, w1) => onRejected w1
    | (Pending, w1) => (Pending, w1)
    end.

(** [p.then(onFulfilled)]: a rejection passes through. *)
Definition then1 {D : Type} (p onFulfilled : Async D) : Async D :=
  then2 p onFulfilled RSVP_reject.

(** A call on a collaborator: recorded, then settled by the outside. *)
Definition external {D : Type} (c : Call)
    (f : Ext D -> Settlement * Ext D) : Async D :=
  fun w =>
    let w1 := record_call c w in
    let '(r, e) := f (ext w1) in
    (r, set_ext e w1).

(** ** The mixin *)

Section Mixin.
Context {D : Type}.
Variable cfg : Config.
Variable env : Env D.

(** <<
    _scheduleJob(jobName, jobFn, timeInMilli) {
      cancel(this.jobName);
      const job = later(this, jobFn, timeInMilli);
      set(this, jobName, job);
    }
    >>
    [this.jobName] is the property whose name is the text "jobName". *)
Definition _scheduleJob (jobName : string) (jobFn : JobFn)
    (timeInMilli : Z) (w : World D) : World D :=
  let w1 := cancel (get_prop "jobName" w) w in
  let '(job, w2) := later jobFn timeInMilli w1 in
  set_prop jobName job w2.

(** [_scheduleRenew]: schedules only when [renewInMilli] is truthy. *)
Definition _scheduleRenew (w : World D) : World D :=
  let renewInMilli := silentAuthRenewSeconds cfg * 1000 in
  if renewInMilli =? 0 then w
  else _scheduleJob "_renewJob" ProcessSessionRenewed renewInMilli w.

(** The getter of [_expiresAt]: 0 when the session is not authenticated.
    It reads nothing but the two session properties it is declared on,
    and it is read by the getter below only, so that it is computed anew
    exactly when that one is: its own memo cannot be told from none. *)
Definition _expiresAt (w : World D) : option Z :=
  if negb (isAuthenticated (session (ext w))) then Some 0
  else getSessionExpiration env (data_authenticated (session (ext w))).

(** The getter of [_jwtRemainingTimeInSeconds], what a computation of
    the property yields:
    [(this._expiresAt ?? 0) - now()], and 0 when that is negative. *)
Definition _jwtRemainingTimeInSeconds (w : World D) : Z :=
  let remaining := default 0 (_expiresAt w) - now (ext w) in
  if remaining <? 0 then 0 else remaining.

(** [this._jwtRemainingTimeInSeconds], the read of the property declared
    [computed('_expiresAt', ...)]: the memoised value when there is one
    for the present revision of the session, whatever [now()] has become;
    otherwise the getter runs and its value is memoised. *)
Definition read_jwtRemainingTimeInSeconds (w : World D) : Z * World D :=
  match memoised w with
  | Some remaining => (remaining, w)
  | None =>
      let remaining := _jwtRemainingTimeInSeconds w in
      (remaining, memoise remaining w)
  end.

Definition _scheduleExpire (w : World D) : World D :=
  let '(remaining, w1) := read_jwtRemainingTimeInSeconds w in
  let expireInMilli := remaining * 1000 in
  _scheduleJob "_expireJob" ProcessSessionExpired expireInMilli w1.

Definition _setupFutureEvents (w : World D) : World D :=
  if inTesting cfg || FastBoot_defined cfg then w
  else if isAuthenticated (session (ext w))
       then _scheduleExpire (_scheduleRenew w)
       else w.

Definition _clearJobs (w : World D) : World D :=
  let w1 := cancel (get_prop "_renewJob" w) w in
  cancel (get_prop "_expireJob" w1) w1.

(** [_trySilentAuth]: with the option on, a new promise that the
    provider's fulfilment rejects and the provider's rejection resolves
    ([authenticate(...).then(reject, resolve)]); otherwise
    [RSVP.resolve()]. *)
Definition _trySilentAuth : Async D :=
  if silentAuthOnSessionExpire cfg then
    then2 (external (CallAuthenticate "authenticator:auth0-silent-auth")
                    (authenticate env "authenticator:auth0-silent-auth"))
          RSVP_reject RSVP_resolve
  else RSVP_resolve.

(** [session.invalidate()] is a call on the session service; what the
    service does with it happens outside the mixin. *)
Definition _invalidateIfAuthenticated (w : World D) : World D :=
  if isAuthenticated (session (ext w)) then record_call CallInvalidate w
  else w.

Definition _processSessionRenewed : Async D :=
  then2 _trySilentAuth (handler _scheduleRenew) (handler _setupFutureEvents).

Definition _processSessionExpired : Async D :=
  then2 (then1 (external CallBeforeSessionExpired (beforeSessionExpired env))
               _trySilentAuth)
        (handler _invalidateIfAuthenticated)
        (handler _scheduleExpire).

(** <<
    sessionAuthenticated() {
      this._setupFutureEvents();
      this._super(...arguments);
    }
    >> *)
Definition sessionAuthenticated (w : World D) : World D :=
  call_super SuperSessionAuthenticated (_setupFutureEvents w).

(** <<
    sessionInvalidated() {
      this._clearJobs();
      return this._super(...arguments);
    }
    >> *)
Definition sessionInvalidated (w : World D) : World D :=
  call_super SuperSessionInvalidated (_clearJobs w).

Definition willDestroy (w : World D) : World D :=
  _clearJobs w.

(** *** Driving the route *)

Definition run_job (fn : JobFn) : Async D :=
  match fn with
  | ProcessSessionRenewed => _processSessionRenewed
  | ProcessSessionExpired => _processSessionExpired
  end.

(** The run loop fires the pending timer with handle [h]: the timer
    leaves the loop and its method runs. A handle that is not pending
    fires nothing. *)
Definition fire (h : nat) (w : World D) : World D :=
  match list_find (fun t => timer_id t = h) (timers w) with
  | Some (_, t) => snd (run_job (timer_fn t) (cancel (Some h) w))
  | None => w
  end.

(** What can happen to a route, one after the other. *)
Inductive Op : Type :=
  | OpSessionAuthenticated
  | OpSessionInvalidated
  | OpWillDestroy
  | OpFire (h : nat)
  | OpOutside (e : Ext D).       (* the session or the clock changes *)

Definition step (o : Op) (w : World D) : World D :=
  match o with
  | OpSessionAuthenticated => sessionAuthenticated w
  | OpSessionInvalidated => sessionInvalidated w
  | OpWillDestroy => willDestroy w
  | OpFire h => fire h w
  | OpOutside e => set_ext e w
  end.

Definition run (ops : list Op) (w : World D) : World D :=
  foldl (fun acc o => step o acc) w ops.

End Mixin.

(** ** Observations *)

(** The pending timers that will run [fn]. *)
Definition live {D : Type} (fn : JobFn) (w : World D) : list Timer :=
  filter (fun t => timer_fn t = fn) (timers w).

(** How many times [session.invalidate()] has been called. *)
Definition invalidations {D : Type} (w : World D) : nat :=
  length (filter (fun c => c = CallInvalidate) (calls w)).

(** How many times [session.authenticate] has been called. *)
Definition is_authenticate (c : Call) : bool :=
  match c with
  | CallAuthenticate _ => true
  | _ => false
  end.

Definition authentications {D : Type} (w : World D) : nat :=
  length (List.filter is_authenticate (calls w)).

(** The [_super] calls that a sequence of operations makes. *)
Definition supers_of {D : Type} (ops : list (@Op D)) : list BaseCall :=
  omap (fun o => match o with
                 | OpSessionAuthenticated => Some SuperSessionAuthenticated
                 | OpSessionInvalidated => Some SuperSessionInvalidated
                 | _ => None
                 end) ops.

(** No property called "jobName" has been set on the route. *)
Definition jobName_unset {D : Type} (w : World D) : Prop :=
  get_prop "jobName" w = None.

(** ** The renewal path as the specification words it

    The renew job, silent authentication being enabled, reads the
    provider's own success or failure, not the inverted one: on success it
    re-enters the setup, on failure it re-runs the setup as well. Kept
    apart from [_processSessionRenewed], which is the method of the
    source. *)
Definition spec_processSessionRenewed {D : Type} (cfg : Config) (env : Env D)
  : Async D :=
  then2 (external (CallAuthenticate "authenticator:auth0-silent-auth")
                  (authenticate env "authenticator:auth0-silent-auth"))
        (handler (_setupFutureEvents cfg env))
        (handler (_setupFutureEvents cfg env)).

(** ** Concrete routes

    Session data is the expiration instant itself, and the extractor
    returns it. The token expires at second 160; the clock reads 100;
    nothing has been memoised. *)

Definition silent : string := "authenticator:auth0-silent-auth".

(** Renewal every 5 seconds, silent authentication on expiry enabled. *)
Definition cfg_on : Config := mkConfig 5 true false false.

(** Renewal every 5 seconds, silent authentication on expiry disabled. *)
Definition cfg_off : Config := mkConfig 5 false false false.

(** A provider that always settles with [r]; the default hook. *)
Definition env_of (r : Settlement) : Env Z :=
  mkEnv Some (fun _ e => (r, e)) default_beforeSessionExpired.

(** A provider that fails, the user having logged out meanwhile. *)
Definition env_logout : Env Z :=
  mkEnv Some
        (fun _ e => (Rejected,
                     mkExt (mkSession false (data_authenticated (session e))
                                      (S (revision (session e))))
                           (now e)))
        default_beforeSessionExpired.

(** A hook whose promise never settles. *)
Definition env_stalled : Env Z :=
  mkEnv Some (fun _ e => (Resolved, e)) (fun e => (Pending, e)).

Definition w_auth : World Z :=
  mkWorld (mkExt (mkSession true 160 0) 100) ∅ [] 0%nat [] None [].

Definition w_anon : World Z :=
  mkWorld (mkExt (mkSession false 160 0) 100) ∅ [] 0%nat [] None [].

Definition w_expired : World Z :=
  mkWorld (mkExt (mkSession true 60 0) 100) ∅ [] 0%nat [] None [].

(** ** The URL hash

    [beforeModel] and the three methods behind it: the route reads the
    login result that the provider left in the URL hash, authenticates
    the session with it and takes the hash out of the address bar. The
    promises of this chain carry values and rejection reasons. *)

(** Why a promise of the chain is rejected: the [Auth0Error] that
    [_getUrlHashData] builds, or a reason that comes from outside. *)
Inductive Reason (E R : Type) : Type :=
  | Auth0Error (err : E)
  | Outside (r : R).
Arguments Auth0Error {E R}.
Arguments Outside {E R}.

(** How a promise with a value ends. *)
Inductive Outcome (A E R : Type) : Type :=
  | Fulfilled (a : A)
  | Failed (why : Reason E R)
  | Unsettled.
Arguments Fulfilled {A E R}.
Arguments Failed {A E R}.
Arguments Unsettled {A E R}.

(** How a promise made outside the mixin ends. *)
Inductive Answer (R : Type) : Type :=
  | Ok
  | Err (r : R)
  | Silent.
Arguments Ok {R}.
Arguments Err {R}.
Arguments Silent {R}.

(** What [auth0.parseHash] hands to its callback, [(err, parsedPayload)],
    if it calls it at all; [None] is [null] or [undefined]. An [err] that
    is there may still be falsy, see [truthy]. *)
Inductive ParseHash (E P : Type) : Type :=
  | Callback (err : option E) (parsedPayload : option P)
  | NoCallback.
Arguments Callback {E P}.
Arguments NoCallback {E P}.

(** What [_clearUrlHash] reads of the browser. *)
Record Window : Set := mkWindow {
  window_history : bool;           (* window.history is there *)
  document_title : string;
  location_pathname : string;
  location_search : string
}.

(** What the chain calls but the mixin does not define.
    [super_beforeModel] is [this._super(...arguments)] under [resolve];
    [parseHash] is the method of the instance that
    [auth0._getAuth0Instance()] returns, given [__enableImpersonation];
    [truthy] is JavaScript's truthiness of an [err] that is there (false
    for [''], [0], [false], [NaN]);
    [isEmpty_payload] is [isEmpty] of [@ember/utils] on a payload that is
    there; [authenticate_with] is [session.authenticate(name, data)]. *)
Record UrlEnv (D E P R : Type) : Type := mkUrlEnv {
  super_beforeModel : Ext D -> Answer R * Ext D;
  enableImpersonation : bool;
  parseHash : bool -> Ext D -> ParseHash E P * Ext D;
  truthy : E -> bool;
  isEmpty_payload : P -> bool;
  authenticate_with : string -> option P -> Ext D -> Answer R * Ext D;
  window : Window
}.
Arguments mkUrlEnv {D E P R}.
Arguments super_beforeModel {D E P R}.
Arguments enableImpersonation {D E P R}.
Arguments parseHash {D E P R}.
Arguments truthy {D E P R}.
Arguments isEmpty_payload {D E P R}.
Arguments authenticate_with {D E P R}.
Arguments window {D E P R}.

(** The route together with what the chain does to the page: the calls
    of [parseHash] (each with its [__enableImpersonation]) and of
    [history.pushState] (state, title, url), in order. *)
Record Page (D : Type) : Type := mkPage {
  route : World D;
  parseHash_calls : list bool;
  pushState_calls : list (string * string * string)
}.
Arguments mkPage {D}.
Arguments route {D}.
Arguments parseHash_calls {D}.
Arguments pushState_calls {D}.

Definition with_route {D : Type} (w : World D) (pg : Page D) : Page D :=
  mkPage w (parseHash_calls pg) (pushState_calls pg).

Definition Promise (D E R A : Type) : Type :=
  Page D -> Outcome A E R * Page D.

(** [p.then(onFulfilled)] for a promise with a value. *)
Definition and_then {D E R A B : Type} (p : Promise D E R A)
    (onFulfilled : A -> Promise D E R B) : Promise D E R B :=
  fun pg =>
    match p pg with
    | (Fulfilled a, pg1) => onFulfilled a pg1
    | (Failed why, pg1) => (Failed why, pg1)
    | (Unsettled, pg1) => (Unsettled, pg1)
    end.

(** A promise made outside, once the outside has answered. *)
Definition answered {D E R : Type} (a : Answer R * Ext D) (pg : Page D)
  : Outcome unit E R * Page D :=
  let pg1 := with_route (set_ext (snd a) (route pg)) pg in
  match fst a with
  | Ok => (Fulfilled tt, pg1)
  | Err r => (Failed (Outside r), pg1)
  | Silent => (Unsettled, pg1)
  end.

Section UrlHash.
Context {D E P R : Type}.
Variable cfg : Config.
Variable env : Env D.
Variable uenv : UrlEnv D E P R.

(** [isEmpty(urlHashData)]: [null] and [undefined] are empty. *)
Definition isEmpty (urlHashData : option P) : bool :=
  match urlHashData with
  | None => true
  | Some payload => isEmpty_payload uenv payload
  end.

(** <<
    _clearUrlHash() {
      if(typeof FastBoot === 'undefined' && !this.inTesting && window.history) {
        window.history.pushState('', document.title,
          window.location.pathname + window.location.search);
      }
      return RSVP.resolve()
    }
    >> *)
Definition _clearUrlHash : Promise D E R unit :=
  fun pg =>
    (Fulfilled tt,
     if negb (FastBoot_defined cfg) && negb (inTesting cfg)
        && window_history (window uenv)
     then mkPage (route pg) (parseHash_calls pg)
                 (pushState_calls pg
                  ++ [("", document_title (window uenv),
                       location_pathname (window uenv)
                       +:+ location_search (window uenv))])
     else pg).

(** [_getUrlHashData]: [undefined] under FastBoot; otherwise the promise
    that the callback of [parseHash] settles: rejected with an
    [Auth0Error] when [err] is truthy ([if (err)]), resolved with the
    payload when it is not. *)
Definition _getUrlHashData : Promise D E R (option P) :=
  fun pg =>
    if FastBoot_defined cfg then (Fulfilled None, pg)
    else
      let pg1 := mkPage (route pg)
                        (parseHash_calls pg ++ [enableImpersonation uenv])
                        (pushState_calls pg) in
      let a := parseHash uenv (enableImpersonation uenv) (ext (route pg1)) in
      let pg2 := with_route (set_ext (snd a) (route pg1)) pg1 in
      match fst a with
      | Callback (Some err) parsedPayload =>
          if truthy uenv err then (Failed (Auth0Error err), pg2)
          else (Fulfilled parsedPayload, pg2)
      | Callback None parsedPayload => (Fulfilled parsedPayload, pg2)
      | NoCallback => (Unsettled, pg2)
      end.

(** [session.authenticate(name, data)] from the chain. *)
Definition session_authenticate (name : string) (data : option P)
  : Promise D E R unit :=
  fun pg =>
    let pg1 := with_route (record_call (CallAuthenticate name) (route pg)) pg in
    answered (authenticate_with uenv name data (ext (route pg1))) pg1.

(** [_authenticateWithUrlHash]: nothing for an empty hash or under
    FastBoot; otherwise the session is authenticated with the hash data
    and, once that has succeeded, the hash is cleared. *)
Definition _authenticateWithUrlHash (urlHashData : option P)
  : Promise D E R unit :=
  fun pg =>
    if isEmpty urlHashData || FastBoot_defined cfg then (Fulfilled tt, pg)
    else and_then (session_authenticate "authenticator:auth0-url-hash"
                                        urlHashData)
                  (fun _ => _clearUrlHash) pg.

(** <<
    beforeModel() {
      this._setupFutureEvents();
      let promise = resolve(this._super(...arguments));
      promise = promise
        .then(this._getUrlHashData.bind(this))
        .then(this._authenticateWithUrlHash.bind(this));
      return promise;
    }
    >> *)
Definition beforeModel : Promise D E R unit :=
  fun pg =>
    let pg1 := with_route (_setupFutureEvents cfg env (route pg)) pg in
    and_then
      (and_then (fun pg2 => answered (super_beforeModel uenv (ext (route pg2))) pg2)
                (fun _ => _getUrlHashData))
      _authenticateWithUrlHash pg1.

End UrlHash.

(** *** Concrete pages

    Payloads and errors are texts; a payload is empty, and an error
    falsy, when it is the empty text. The page is at [/callback?x=1]. *)

(** The authenticator that [_authenticateWithUrlHash] names. *)
Definition hash_authenticator : string := "authenticator:auth0-url-hash".

Definition the_window : Window :=
  mkWindow true "App" "/callback" "?x=1".

(** The hash parses to [parsed]; authenticating with it ends in [auth]. *)
Definition uenv_of (parsed : ParseHash string string) (auth : Answer string)
  : UrlEnv Z string string string :=
  mkUrlEnv (fun e => (Ok, e)) false (fun _ e => (parsed, e))
           (fun err => negb (bool_decide (err = "")))
           (fun p => bool_decide (p = "")) (fun _ _ e => (auth, e))
           the_window.

Definition page_auth : Page Z := mkPage w_auth [] [].

Definition page_anon : Page Z := mkPage w_anon [] [].

(** The same configuration as [cfg_on], under test and under FastBoot. *)
Definition cfg_test : Config := mkConfig 5 true true false.

Definition cfg_fastboot : Config := mkConfig 5 true false true.

(** No scheduled renewal, silent authentication on expiry disabled. *)
Definition cfg_plain : Config := mkConfig 0 false false false.

(** A hook that rejects. *)
Definition env_hook_rejects : Env Z :=
  mkEnv Some (fun _ e => (Resolved, e)) (fun e => (Rejected, e)).

(** The route of [w_auth] ten seconds after its token has expired: the
    setup ran at second 100, the session has not been set since, the
    clock reads 170. *)
Definition w_late : World Z :=
  run cfg_plain (env_of Resolved)
      [OpSessionAuthenticated; OpOutside (mkExt (mkSession true 160 0) 170)]
      w_auth.

(** * Properties *)

(** ** The run loop primitives *)

Section Primitives.
Context {D : Type}.
Implicit Types (w : World D) (name : string) (fn : JobFn) (ms : Z).

(** Filtering a list all of whose elements pass keeps the list. *)
Lemma filter_all {A : Type} (P : A → Prop) `{!∀ x, Decision (P x)}
    (l : list A) :
  (∀ x, x ∈ l → P x) → filter P l = l.
Proof.
  induction l as [|a l IH]; intros Hall; [done|].
  rewrite filter_cons, decide_True by (apply Hall; left).
  f_equal. apply IH. intros x Hx. apply Hall. by right.
Qed.

Lemma cancel_undefined w : cancel None w = w.
Proof. reflexivity. Qed.

Lemma cancel_next_timer (h : option nat) w :
  next_timer (cancel h w) = next_timer w.
Proof. by destruct h. Qed.

Lemma cancel_calls (h : option nat) w : calls (cancel h w) = calls w.
Proof. by destruct h. Qed.

Lemma cancel_ext (h : option nat) w : ext (cancel h w) = ext w.
Proof. by destruct h. Qed.

Lemma cancel_props (h : option nat) w : props (cancel h w) = props w.
Proof. by destruct h. Qed.

(** Cancelling never brings a timer in. *)
Lemma cancel_timers_from (h : option nat) w (t : Timer) :
  t ∈ timers (cancel h w) → t ∈ timers w.
Proof.
  destruct h as [h|]; simpl; [|done].
  rewrite list_elem_of_filter. tauto.
Qed.

(** With nothing pending, cancelling any handle changes nothing. *)
Lemma cancel_idle (h : option nat) w : timers w = [] → cancel h w = w.
Proof.
  intros Hnil. destruct h as [h|]; [|done].
  destruct w as [e p ts n cs]; simpl in *. by subst ts.
Qed.

Lemma scheduleJob_next_timer name fn ms w :
  next_timer (_scheduleJob name fn ms w) = S (next_timer w).
Proof. unfold _scheduleJob; simpl. by rewrite cancel_next_timer. Qed.

Lemma scheduleJob_calls name fn ms w :
  calls (_scheduleJob name fn ms w) = calls w.
Proof. unfold _scheduleJob; simpl. by rewrite cancel_calls. Qed.

Lemma scheduleJob_ext name fn ms w :
  ext (_scheduleJob name fn ms w) = ext w.
Proof. unfold _scheduleJob; simpl. by rewrite cancel_ext. Qed.

(** The new handle is recorded under the name that was passed. *)
Lemma scheduleJob_prop name fn ms w :
  get_prop name (_scheduleJob name fn ms w) = Some (next_timer w).
Proof.
  unfold _scheduleJob, get_prop; simpl.
  by rewrite cancel_next_timer, lookup_insert_eq.
Qed.

Lemma scheduleJob_prop_other name name' fn ms w :
  name ≠ name' →
  get_prop name' (_scheduleJob name fn ms w) = get_prop name' w.
Proof.
  intros Hne. unfold _scheduleJob, get_prop; simpl.
  by rewrite lookup_insert_ne, cancel_props.
Qed.

(** The new timer is pending after the call. *)
Lemma scheduleJob_pending name fn ms w :
  mkTimer (next_timer w) fn ms ∈ timers (_scheduleJob name fn ms w).
Proof.
  unfold _scheduleJob; simpl. rewrite cancel_next_timer.
  apply elem_of_app. right. apply list_elem_of_singleton. reflexivity.
Qed.

(** Every pending timer after the call was pending before, or is the new
    one. *)
Lemma scheduleJob_timers_from name fn ms w (t : Timer) :
  t ∈ timers (_scheduleJob name fn ms w) →
  t ∈ timers w ∨ t = mkTimer (next_timer w) fn ms.
Proof.
  unfold _scheduleJob; simpl. rewrite cancel_next_timer.
  intros [Hin | Hin]%elem_of_app.
  - left. by eapply cancel_timers_from.
  - right. by apply list_elem_of_singleton in Hin.
Qed.

(** What [cancel(this.jobName)] amounts to while no property called
    "jobName" has been set: the pending timers all stay. *)
Lemma scheduleJob_timers name fn ms w :
  get_prop "jobName" w = None →
  timers (_scheduleJob name fn ms w)
  = timers w ++ [mkTimer (next_timer w) fn ms].
Proof. intros Hnone. unfold _scheduleJob. by rewrite Hnone. Qed.

Lemma invalidations_record_call (c : Call) w :
  invalidations (record_call c w)
  = (invalidations w + (if decide (c = CallInvalidate) then 1 else 0))%nat.
Proof.
  unfold invalidations, record_call; simpl.
  rewrite filter_app, length_app. f_equal.
  rewrite filter_cons, filter_nil. by destruct (decide (c = CallInvalidate)).
Qed.

Lemma invalidations_set_ext (e : Ext D) w :
  invalidations (set_ext e w) = invalidations w.
Proof. reflexivity. Qed.

Lemma invalidations_scheduleJob name fn ms w :
  invalidations (_scheduleJob name fn ms w) = invalidations w.
Proof. unfold invalidations. by rewrite scheduleJob_calls. Qed.

Lemma authentications_record_call (c : Call) w :
  authentications (record_call c w)
  = (authentications w + (if is_authenticate c then 1 else 0))%nat.
Proof.
  unfold authentications, record_call; simpl.
  rewrite List.filter_app, length_app. f_equal.
  simpl. by destruct (is_authenticate c).
Qed.

(** A read of the remaining time changes nothing but the memo. *)
Lemma read_jwtRemainingTimeInSeconds_frame (env : Env D) w :
  ext (snd (read_jwtRemainingTimeInSeconds env w)) = ext w
  ∧ props (snd (read_jwtRemainingTimeInSeconds env w)) = props w
  ∧ timers (snd (read_jwtRemainingTimeInSeconds env w)) = timers w
  ∧ next_timer (snd (read_jwtRemainingTimeInSeconds env w)) = next_timer w
  ∧ calls (snd (read_jwtRemainingTimeInSeconds env w)) = calls w
  ∧ base_calls (snd (read_jwtRemainingTimeInSeconds env w)) = base_calls w.
Proof.
  unfold read_jwtRemainingTimeInSeconds. by destruct (memoised w).
Qed.

(** With nothing memoised for the present revision, the getter runs. *)
Lemma read_jwtRemainingTimeInSeconds_computes (env : Env D) w :
  memoised w = None →
  read_jwtRemainingTimeInSeconds env w
  = (_jwtRemainingTimeInSeconds env w,
     memoise (_jwtRemainingTimeInSeconds env w) w).
Proof. intros Hnone. unfold read_jwtRemainingTimeInSeconds. by rewrite Hnone. Qed.

(** With a value memoised for the present revision, it is returned. *)
Lemma read_jwtRemainingTimeInSeconds_memoised (env : Env D) w (v : Z) :
  memoised w = Some v →
  read_jwtRemainingTimeInSeconds env w = (v, w).
Proof. intros Hsome. unfold read_jwtRemainingTimeInSeconds. by rewrite Hsome. Qed.

(** The value read depends on the outside and on the memo only. *)
Lemma read_jwtRemainingTimeInSeconds_ext (env : Env D) w w' :
  ext w' = ext w →
  remaining_memo w' = remaining_memo w →
  fst (read_jwtRemainingTimeInSeconds env w')
  = fst (read_jwtRemainingTimeInSeconds env w).
Proof.
  intros Hext Hmemo.
  unfold read_jwtRemainingTimeInSeconds, memoised, _jwtRemainingTimeInSeconds,
    _expiresAt.
  rewrite Hext, Hmemo.
  destruct (remaining_memo w) as [[rev v]|]; [|done].
  by destruct (decide (rev = revision (session (ext w)))).
Qed.

Lemma scheduleExpire_unfold (env : Env D) w :
  _scheduleExpire env w
  = _scheduleJob "_expireJob" ProcessSessionExpired
      (fst (read_jwtRemainingTimeInSeconds env w) * 1000)
      (snd (read_jwtRemainingTimeInSeconds env w)).
Proof.
  unfold _scheduleExpire.
  by destruct (read_jwtRemainingTimeInSeconds env w).
Qed.

Lemma cancel_memo (h : option nat) w :
  remaining_memo (cancel h w) = remaining_memo w.
Proof. by destruct h. Qed.

Lemma scheduleJob_memo name fn ms w :
  remaining_memo (_scheduleJob name fn ms w) = remaining_memo w.
Proof. unfold _scheduleJob; simpl. by rewrite cancel_memo. Qed.

Lemma cancel_base_calls (h : option nat) w :
  base_calls (cancel h w) = base_calls w.
Proof. by destruct h. Qed.

End Primitives.

(** ** The methods of the mixin *)

Section Methods.
Context {D : Type}.
Implicit Types (w : World D) (cfg : Config) (env : Env D) (e : Ext D).

Lemma scheduleRenew_calls cfg w : calls (_scheduleRenew cfg w) = calls w.
Proof.
  unfold _scheduleRenew. destruct (_ =? 0); [done|apply scheduleJob_calls].
Qed.

Lemma scheduleRenew_ext cfg w : ext (_scheduleRenew cfg w) = ext w.
Proof.
  unfold _scheduleRenew. destruct (_ =? 0); [done|apply scheduleJob_ext].
Qed.

Lemma scheduleExpire_calls env w : calls (_scheduleExpire env w) = calls w.
Proof.
  rewrite scheduleExpire_unfold, scheduleJob_calls.
  apply read_jwtRemainingTimeInSeconds_frame.
Qed.

Lemma scheduleExpire_pending env w :
  mkTimer (next_timer w) ProcessSessionExpired
          (fst (read_jwtRemainingTimeInSeconds env w) * 1000)
  ∈ timers (_scheduleExpire env w).
Proof.
  rewrite scheduleExpire_unfold.
  destruct (read_jwtRemainingTimeInSeconds_frame env w)
    as (_ & _ & _ & Hn & _).
  rewrite <- Hn. apply scheduleJob_pending.
Qed.

Lemma scheduleExpire_prop env w :
  get_prop "_expireJob" (_scheduleExpire env w) = Some (next_timer w).
Proof.
  rewrite scheduleExpire_unfold, scheduleJob_prop. f_equal.
  apply read_jwtRemainingTimeInSeconds_frame.
Qed.

Lemma scheduleExpire_prop_other env w (name : string) :
  name ≠ "_expireJob" →
  get_prop name (_scheduleExpire env w) = get_prop name w.
Proof.
  intros Hne. rewrite scheduleExpire_unfold.
  rewrite scheduleJob_prop_other by done. unfold get_prop. f_equal.
  apply read_jwtRemainingTimeInSeconds_frame.
Qed.

Lemma scheduleExpire_timers_from env w (t : Timer) :
  t ∈ timers (_scheduleExpire env w) →
  t ∈ timers w
  ∨ t = mkTimer (next_timer w) ProcessSessionExpired
                (fst (read_jwtRemainingTimeInSeconds env w) * 1000).
Proof.
  rewrite scheduleExpire_unfold.
  destruct (read_jwtRemainingTimeInSeconds_frame env w)
    as (_ & _ & Ht & Hn & _).
  intros Hin. apply scheduleJob_timers_from in Hin.
  by rewrite Ht, Hn in Hin.
Qed.

Lemma scheduleExpire_timers env w :
  get_prop "jobName" w = None →
  timers (_scheduleExpire env w)
  = timers w
    ++ [mkTimer (next_timer w) ProcessSessionExpired
                (fst (read_jwtRemainingTimeInSeconds env w) * 1000)].
Proof.
  intros Hjob. rewrite scheduleExpire_unfold.
  destruct (read_jwtRemainingTimeInSeconds_frame env w)
    as (_ & Hp & Ht & Hn & _).
  rewrite scheduleJob_timers by (unfold get_prop; by rewrite Hp).
  by rewrite Ht, Hn.
Qed.

Lemma scheduleExpire_ext env w : ext (_scheduleExpire env w) = ext w.
Proof.
  rewrite scheduleExpire_unfold, scheduleJob_ext.
  apply read_jwtRemainingTimeInSeconds_frame.
Qed.

Lemma scheduleExpire_next env w :
  next_timer (_scheduleExpire env w) = S (next_timer w).
Proof.
  rewrite scheduleExpire_unfold, scheduleJob_next_timer. f_equal.
  apply read_jwtRemainingTimeInSeconds_frame.
Qed.

Lemma scheduleExpire_invalidations env w :
  invalidations (_scheduleExpire env w) = invalidations w.
Proof. unfold invalidations. by rewrite scheduleExpire_calls. Qed.

Lemma setupFutureEvents_calls cfg env w :
  calls (_setupFutureEvents cfg env w) = calls w.
Proof.
  unfold _setupFutureEvents.
  destruct (inTesting cfg || FastBoot_defined cfg); [done|].
  destruct (isAuthenticated _); [|done].
  by rewrite scheduleExpire_calls, scheduleRenew_calls.
Qed.

(** The guard of the setup: nothing is scheduled for a session that is not
    authenticated, nor in a suppressed environment. *)
Lemma setupFutureEvents_unauthenticated cfg env w :
  isAuthenticated (session (ext w)) = false →
  _setupFutureEvents cfg env w = w.
Proof.
  intros Hanon. unfold _setupFutureEvents. rewrite Hanon.
  by destruct (inTesting cfg || FastBoot_defined cfg).
Qed.

Lemma setupFutureEvents_suppressed cfg env w :
  inTesting cfg = true ∨ FastBoot_defined cfg = true →
  _setupFutureEvents cfg env w = w.
Proof.
  intros Hs. unfold _setupFutureEvents.
  destruct Hs as [-> | ->]; [done|]. by rewrite orb_true_r.
Qed.

(** [_clearJobs] is safe when nothing is pending. *)
Lemma clearJobs_idle w : timers w = [] → _clearJobs w = w.
Proof.
  intros Hnil. unfold _clearJobs.
  rewrite (cancel_idle (get_prop "_renewJob" w) w Hnil); simpl.
  by apply cancel_idle.
Qed.

(** [_clearJobs] twice is [_clearJobs] once. *)
Lemma clearJobs_idempotent w : _clearJobs (_clearJobs w) = _clearJobs w.
Proof.
  unfold _clearJobs, get_prop. rewrite !cancel_props.
  destruct w as [e p ts n cs]; simpl.
  destruct (p !! "_renewJob") as [a|], (p !! "_expireJob") as [b|]; simpl;
    try done; f_equal.
  - rewrite (filter_all (λ t, timer_id t ≠ a) (filter _ (filter _ ts))).
    + apply filter_all. intros t Hin. by apply list_elem_of_filter in Hin as [? _].
    + intros t Hin. apply list_elem_of_filter in Hin as [_ Hin].
      by apply list_elem_of_filter in Hin as [? _].
  - apply filter_all. intros t Hin. by apply list_elem_of_filter in Hin as [? _].
  - apply filter_all. intros t Hin. by apply list_elem_of_filter in Hin as [? _].
Qed.

(** After [_clearJobs] the timers recorded under the two names are not
    pending. *)
Lemma clearJobs_cancels_recorded w (t : Timer) (name : string) :
  name = "_renewJob" ∨ name = "_expireJob" →
  get_prop name w = Some (timer_id t) →
  t ∉ timers (_clearJobs w).
Proof.
  intros Hname Hrec Hin. unfold _clearJobs in Hin.
  destruct Hname as [-> | ->].
  - apply cancel_timers_from in Hin. rewrite Hrec in Hin. simpl in Hin.
    apply list_elem_of_filter in Hin. by destruct Hin.
  - unfold get_prop in *. rewrite cancel_props, Hrec in Hin. simpl in Hin.
    apply list_elem_of_filter in Hin. by destruct Hin.
Qed.

(** The helper, option on: the provider is called, and its settlement is
    swapped. *)
Lemma trySilentAuth_enabled cfg env w (r : Settlement) e :
  silentAuthOnSessionExpire cfg = true →
  authenticate env silent (ext w) = (r, e) →
  _trySilentAuth cfg env w
  = (match r with
     | Resolved => Rejected
     | Rejected => Resolved
     | Pending => Pending
     end,
     set_ext e (record_call (CallAuthenticate silent) w)).
Proof.
  intros Hflag Hauth. unfold _trySilentAuth, silent in *. rewrite Hflag.
  unfold then2, external; simpl. rewrite Hauth. by destruct r.
Qed.

(** The helper, option off. *)
Lemma trySilentAuth_disabled cfg env w :
  silentAuthOnSessionExpire cfg = false →
  _trySilentAuth cfg env w = (Resolved, w).
Proof. intros Hflag. unfold _trySilentAuth. by rewrite Hflag. Qed.

(** The renew job, read off the helper's settlement. *)
Lemma processSessionRenewed_unfold cfg env w :
  _processSessionRenewed cfg env w
  = match _trySilentAuth cfg env w with
    | (Resolved, w1) => (Resolved, _scheduleRenew cfg w1)
    | (Rejected, w1) => (Resolved, _setupFutureEvents cfg env w1)
    | (Pending, w1) => (Pending, w1)
    end.
Proof. reflexivity. Qed.

(** The expire job, read off the hook's settlement and then the
    helper's. *)
Lemma processSessionExpired_unfold cfg env w :
  _processSessionExpired cfg env w
  = match beforeSessionExpired env (ext w) with
    | (Resolved, e1) =>
        match _trySilentAuth cfg env
                (set_ext e1 (record_call CallBeforeSessionExpired w)) with
        | (Resolved, w2) => (Resolved, _invalidateIfAuthenticated w2)
        | (Rejected, w2) => (Resolved, _scheduleExpire env w2)
        | (Pending, w2) => (Pending, w2)
        end
    | (Rejected, e1) =>
        (Resolved,
         _scheduleExpire env
           (set_ext e1 (record_call CallBeforeSessionExpired w)))
    | (Pending, e1) =>
        (Pending, set_ext e1 (record_call CallBeforeSessionExpired w))
    end.
Proof.
  unfold _processSessionExpired, then1, then2, external; simpl.
  destruct (beforeSessionExpired env (ext w)) as [[| |] e1]; reflexivity.
Qed.

Lemma invalidateIfAuthenticated_invalidations w :
  invalidations (_invalidateIfAuthenticated w)
  = (invalidations w
     + (if isAuthenticated (session (ext w)) then 1 else 0))%nat.
Proof.
  unfold _invalidateIfAuthenticated.
  destruct (isAuthenticated (session (ext w))).
  - by rewrite invalidations_record_call.
  - lia.
Qed.

End Methods.

(** ** Remaining time *)




(** ** Silent authentication *)

(** C3: [_trySilentAuth] has one fixed, inverted polarity. With silent
    authentication enabled the provider is called once, its success gives
    a rejection and its failure a resolution (and a provider that never
    settles leaves the helper unsettled); with it disabled the helper
    resolves at once and the provider is not called. *)
Theorem trySilentAuth_polarity {D : Type} (cfg : Config) (env : Env D)
    (w : World D) :
  (silentAuthOnSessionExpire cfg = true →
   ∀ (r : Settlement) (e : Ext D),
     authenticate env silent (ext w) = (r, e) →
     _trySilentAuth cfg env w
     = (match r with
        | Resolved => Rejected
        | Rejected => Resolved
        | Pending => Pending
        end,
        set_ext e (record_call (CallAuthenticate silent) w))
     ∧ calls (snd (_trySilentAuth cfg env w))
       = calls w ++ [CallAuthenticate silent])
  ∧ (silentAuthOnSessionExpire cfg = false →
     _trySilentAuth cfg env w = (Resolved, w)
     ∧ calls (snd (_trySilentAuth cfg env w)) = calls w).
Proof.
  split; intros Hflag.
  - intros r e Hauth.
    rewrite (trySilentAuth_enabled cfg env w r e Hflag Hauth). by split.
  - rewrite (trySilentAuth_disabled cfg env w Hflag). by split.
Qed.

(** Enabled and the provider succeeds: a rejection, after one call.
    Disabled: a resolution, and no call. *)
Lemma trySilentAuth_polarity_witness :
  _trySilentAuth cfg_on (env_of Resolved) w_auth
  = (Rejected, record_call (CallAuthenticate silent) w_auth)
  ∧ _trySilentAuth cfg_off (env_of Resolved) w_auth = (Resolved, w_auth).
Proof.
  split.
  - apply (proj1 (trySilentAuth_polarity cfg_on (env_of Resolved) w_auth)
             eq_refl Resolved (ext w_auth) eq_refl).
  - apply (proj2 (trySilentAuth_polarity cfg_off (env_of Resolved) w_auth)
             eq_refl).
Defined.

(** ** The renewal path *)

(** C2, as stated, fails: the renew job fires for an authenticated session
    and the provider fails. The method reschedules the renew job and
    nothing else; re-running the setup would also schedule an expire
    job. *)
Lemma renewal_failure_is_not_a_setup :
  live ProcessSessionExpired
       (snd (_processSessionRenewed cfg_on (env_of Rejected) w_auth)) = []
  ∧ live ProcessSessionExpired
         (snd (spec_processSessionRenewed cfg_on (env_of Rejected) w_auth))
    = [mkTimer 1 ProcessSessionExpired 60000]
  ∧ _processSessionRenewed cfg_on (env_of Rejected) w_auth
    ≠ spec_processSessionRenewed cfg_on (env_of Rejected) w_auth.
Proof.
  split; [by vm_compute|]. split; [by vm_compute|].
  intros Heq.
  apply (f_equal (λ r, length (timers (snd r)))) in Heq.
  vm_compute in Heq. discriminate.
Qed.

(** C2, amended: the renewal path goes through the same inverting helper
    as the expiration path. With silent authentication enabled, a provider
    success (the helper's rejection) re-runs the on-authenticated setup; a
    provider failure (the helper's resolution), the session being
    authenticated when the provider settles, only reschedules the renew
    job; while the provider has not settled nothing is scheduled. *)
Theorem renewal_path_reads_inverted_helper {D : Type} (cfg : Config)
    (env : Env D) (w : World D) (r : Settlement) (e : Ext D) :
  silentAuthOnSessionExpire cfg = true →
  authenticate env silent (ext w) = (r, e) →
  (r = Rejected → isAuthenticated (session e) = true) →
  _processSessionRenewed cfg env w
  = match r with
    | Resolved =>
        (Resolved,
         _setupFutureEvents cfg env
           (set_ext e (record_call (CallAuthenticate silent) w)))
    | Rejected =>
        (Resolved,
         _scheduleRenew cfg
           (set_ext e (record_call (CallAuthenticate silent) w)))
    | Pending =>
        (Pending, set_ext e (record_call (CallAuthenticate silent) w))
    end.
Proof.
  intros Hflag Hauth _. rewrite processSessionRenewed_unfold.
  rewrite (trySilentAuth_enabled cfg env w r e Hflag Hauth).
  by destruct r.
Qed.

(** The provider fails for an authenticated session: one renew timer, no
    expire timer. *)
Lemma renewal_path_reads_inverted_helper_witness :
  timers (snd (_processSessionRenewed cfg_on (env_of Rejected) w_auth))
  = [mkTimer 0 ProcessSessionRenewed 5000].
Proof.
  rewrite (renewal_path_reads_inverted_helper cfg_on (env_of Rejected) w_auth
             Rejected (ext w_auth) eq_refl eq_refl (fun _ => eq_refl)).
  reflexivity.
Defined.

(** C10: the renewal path's call to the provider is gated by
    [silentAuthOnSessionExpire] alone. With the option off, firing the
    renew job calls no provider and is exactly [_scheduleRenew]: no timer
    is added but the renew timer, whose handle is recorded under
    [_renewJob] when the renew interval is not zero, and the handle under
    [_expireJob] stays. With the option on, the provider is called once. *)
Theorem renewal_gated_by_expire_flag {D : Type} (cfg : Config) (env : Env D)
    (w : World D) :
  (silentAuthOnSessionExpire cfg = false →
   let w' := snd (_processSessionRenewed cfg env w) in
   let renew :=
     mkTimer (next_timer w) ProcessSessionRenewed
             (silentAuthRenewSeconds cfg * 1000) in
   _processSessionRenewed cfg env w = (Resolved, _scheduleRenew cfg w)
   ∧ calls w' = calls w
   ∧ authentications w' = authentications w
   ∧ (∀ t : Timer, t ∈ timers w' → t ∈ timers w ∨ t = renew)
   ∧ get_prop "_expireJob" w' = get_prop "_expireJob" w
   ∧ (silentAuthRenewSeconds cfg ≠ 0 →
      renew ∈ timers w' ∧ get_prop "_renewJob" w' = Some (next_timer w)))
  ∧ (silentAuthOnSessionExpire cfg = true →
     authentications (snd (_processSessionRenewed cfg env w))
     = S (authentications w)).
Proof.
  split; intros Hflag.
  - assert (Hrun : _processSessionRenewed cfg env w
                   = (Resolved, _scheduleRenew cfg w)).
    { rewrite processSessionRenewed_unfold.
      by rewrite (trySilentAuth_disabled cfg env w Hflag). }
    cbv zeta. rewrite Hrun; simpl.
    split; [done|]. split; [apply scheduleRenew_calls|].
    split; [unfold authentications; by rewrite scheduleRenew_calls|].
    unfold _scheduleRenew.
    destruct (Z.eqb_spec (silentAuthRenewSeconds cfg * 1000) 0) as [Hz|Hnz].
    + split; [tauto|]. split; [done|]. intros Hsecs. lia.
    + split; [apply scheduleJob_timers_from|].
      split; [by apply scheduleJob_prop_other|].
      intros _. split; [apply scheduleJob_pending|apply scheduleJob_prop].
  - destruct (authenticate env silent (ext w)) as [r e] eqn:Hauth.
    rewrite processSessionRenewed_unfold.
    rewrite (trySilentAuth_enabled cfg env w r e Hflag Hauth).
    unfold authentications.
    destruct r; simpl;
      rewrite ?setupFutureEvents_calls, ?scheduleRenew_calls; simpl;
      rewrite List.filter_app, length_app; simpl; lia.
Qed.

(** With the option off and a provider that would succeed, firing the
    renew job of an authenticated session calls no one and leaves one
    renew timer. *)
Lemma renewal_gated_by_expire_flag_witness :
  calls (snd (_processSessionRenewed cfg_off (env_of Resolved) w_auth)) = []
  ∧ mkTimer 0 ProcessSessionRenewed 5000
    ∈ timers (snd (_processSessionRenewed cfg_off (env_of Resolved) w_auth)).
Proof.
  pose proof (proj1 (renewal_gated_by_expire_flag cfg_off (env_of Resolved)
                       w_auth) eq_refl) as H.
  cbv zeta in H.
  destruct H as (_ & Hcalls & _ & _ & _ & Hrenew).
  split; [exact Hcalls|].
  apply Hrenew. simpl. lia.
Defined.

(** ** The expiration path *)

(** C4: the hook has resolved and silent authentication is disabled or
    the provider fails. Then [session.invalidate()] is called exactly once
    when the session is authenticated at the re-check that follows, and
    not at all when it is not; no timer is scheduled. [e2] is the outside
    world at that re-check. *)
Theorem expiration_proceed_path {D : Type} (cfg : Config) (env : Env D)
    (w : World D) (e1 e2 : Ext D) :
  beforeSessionExpired env (ext w) = (Resolved, e1) →
  (silentAuthOnSessionExpire cfg = false ∧ e2 = e1
   ∨ silentAuthOnSessionExpire cfg = true
     ∧ authenticate env silent e1 = (Rejected, e2)) →
  let w' := snd (_processSessionExpired cfg env w) in
  invalidations w'
  = (invalidations w + (if isAuthenticated (session e2) then 1 else 0))%nat
  ∧ timers w' = timers w
  ∧ ext w' = e2.
Proof.
  intros Hhook Hsilent. cbv zeta.
  rewrite processSessionExpired_unfold, Hhook.
  destruct Hsilent as [[Hflag ->] | [Hflag Hauth]].
  - rewrite (trySilentAuth_disabled cfg env
               (set_ext e1 (record_call CallBeforeSessionExpired w))
               Hflag); simpl.
    rewrite invalidateIfAuthenticated_invalidations; simpl.
    rewrite invalidations_set_ext, invalidations_record_call; simpl.
    split; [lia|].
    unfold _invalidateIfAuthenticated; simpl.
    by destruct (isAuthenticated (session e1)).
  - rewrite (trySilentAuth_enabled cfg env
               (set_ext e1 (record_call CallBeforeSessionExpired w))
               Rejected e2 Hflag Hauth); simpl.
    rewrite invalidateIfAuthenticated_invalidations; simpl.
    rewrite invalidations_set_ext, invalidations_record_call,
      invalidations_set_ext, invalidations_record_call; simpl.
    split; [lia|].
    unfold _invalidateIfAuthenticated; simpl.
    by destruct (isAuthenticated (session e2)).
Qed.

(** The expire job fires for an authenticated session with silent
    authentication disabled: one call to [invalidate()]. *)
Lemma expiration_proceed_path_witness :
  invalidations (snd (_processSessionExpired cfg_off (env_of Rejected) w_auth))
  = 1%nat.
Proof.
  apply (expiration_proceed_path cfg_off (env_of Rejected) w_auth
           (ext w_auth) (ext w_auth) eq_refl (or_introl (conj eq_refl eq_refl))).
Defined.

(** C5: the hook has resolved, silent authentication on expiry is enabled
    and the provider succeeds. Then the expire job is rescheduled (a new
    pending timer for [_processSessionExpired], its handle recorded under
    [_expireJob], its delay what [_jwtRemainingTimeInSeconds] reads as
    once the provider has settled: memoised, or computed if the session
    has been set since) and [session.invalidate()] is not called. *)
Theorem expiration_reprieve_path {D : Type} (cfg : Config) (env : Env D)
    (w : World D) (e1 e2 : Ext D) :
  silentAuthOnSessionExpire cfg = true →
  beforeSessionExpired env (ext w) = (Resolved, e1) →
  authenticate env silent e1 = (Resolved, e2) →
  let w' := snd (_processSessionExpired cfg env w) in
  mkTimer (next_timer w) ProcessSessionExpired
          (fst (read_jwtRemainingTimeInSeconds env (set_ext e2 w)) * 1000)
  ∈ timers w'
  ∧ get_prop "_expireJob" w' = Some (next_timer w)
  ∧ invalidations w' = invalidations w
  ∧ calls w'
    = calls w ++ [CallBeforeSessionExpired; CallAuthenticate silent].
Proof.
  intros Hflag Hhook Hauth. cbv zeta.
  rewrite processSessionExpired_unfold, Hhook.
  rewrite (trySilentAuth_enabled cfg env
             (set_ext e1 (record_call CallBeforeSessionExpired w))
             Resolved e2 Hflag Hauth); cbn [snd].
  set (w2 := set_ext e2 (record_call (CallAuthenticate silent)
                (set_ext e1 (record_call CallBeforeSessionExpired w)))).
  assert (Hread : fst (read_jwtRemainingTimeInSeconds env w2)
                  = fst (read_jwtRemainingTimeInSeconds env (set_ext e2 w)))
    by (by apply read_jwtRemainingTimeInSeconds_ext).
  rewrite <- Hread.
  split; [exact (scheduleExpire_pending env w2)|].
  split; [exact (scheduleExpire_prop env w2)|].
  split.
  - rewrite scheduleExpire_invalidations. unfold w2.
    rewrite invalidations_set_ext, invalidations_record_call,
      invalidations_set_ext, invalidations_record_call; simpl. lia.
  - rewrite scheduleExpire_calls; simpl. by rewrite <- app_assoc.
Qed.

(** The expire job fires, the provider succeeds: the expire job is
    pending again, 60 seconds ahead, and nobody called [invalidate()]. *)
Lemma expiration_reprieve_path_witness :
  mkTimer 0 ProcessSessionExpired 60000
  ∈ timers (snd (_processSessionExpired cfg_on (env_of Resolved) w_auth))
  ∧ invalidations (snd (_processSessionExpired cfg_on (env_of Resolved) w_auth))
    = 0%nat.
Proof.
  pose proof (expiration_reprieve_path cfg_on (env_of Resolved) w_auth
                (ext w_auth) (ext w_auth) eq_refl eq_refl eq_refl) as H.
  cbv zeta in H. destruct H as (Hin & _ & Hinv & _).
  split; [exact Hin|exact Hinv].
Defined.

(** C7: the first thing the expire job does is call the hook, before the
    provider and before any invalidation; and while the hook's promise has
    not settled nothing else happens: the job stays unsettled, no other
    call is made (so no [invalidate()]), and timers and handles are as
    they were. *)
Theorem hook_runs_first_and_gates {D : Type} (cfg : Config) (env : Env D)
    (w : World D) :
  (∃ rest : list Call,
     calls (snd (_processSessionExpired cfg env w))
     = calls w ++ CallBeforeSessionExpired :: rest)
  ∧ (fst (beforeSessionExpired env (ext w)) = Pending →
     let w' := snd (_processSessionExpired cfg env w) in
     fst (_processSessionExpired cfg env w) = Pending
     ∧ calls w' = calls w ++ [CallBeforeSessionExpired]
     ∧ invalidations w' = invalidations w
     ∧ timers w' = timers w
     ∧ props w' = props w).
Proof.
  rewrite processSessionExpired_unfold.
  destruct (beforeSessionExpired env (ext w)) as [h e1] eqn:Hhook.
  split.
  - destruct h; cbn [snd].
    + destruct (silentAuthOnSessionExpire cfg) eqn:Hflag.
      * destruct (authenticate env silent e1) as [r e2] eqn:Hauth.
        rewrite (trySilentAuth_enabled cfg env
                   (set_ext e1 (record_call CallBeforeSessionExpired w))
                   r e2 Hflag Hauth).
        unfold _invalidateIfAuthenticated.
        destruct r; cbn [snd].
        -- rewrite scheduleExpire_calls; simpl.
           rewrite <- app_assoc. by eexists.
        -- destruct (isAuthenticated _); simpl;
             rewrite <- ?app_assoc; by eexists.
        -- simpl. rewrite <- app_assoc. by eexists.
      * rewrite (trySilentAuth_disabled cfg env
                   (set_ext e1 (record_call CallBeforeSessionExpired w))
                   Hflag).
        unfold _invalidateIfAuthenticated; cbn [snd].
        destruct (isAuthenticated _); simpl;
          rewrite <- ?app_assoc; by eexists.
    + rewrite scheduleExpire_calls; simpl. by eexists.
    + simpl. by eexists.
  - cbn [fst]. intros ->. cbv zeta; cbn [fst snd].
    repeat split.
    rewrite invalidations_set_ext, invalidations_record_call; simpl. lia.
Qed.

(** A hook that never settles: the hook was called, and that is all. *)
Lemma hook_runs_first_and_gates_witness :
  calls (snd (_processSessionExpired cfg_off env_stalled w_auth))
  = [CallBeforeSessionExpired]
  ∧ invalidations (snd (_processSessionExpired cfg_off env_stalled w_auth))
    = 0%nat.
Proof.
  pose proof (proj2 (hook_runs_first_and_gates cfg_off env_stalled w_auth)
                eq_refl) as H.
  cbv zeta in H. destruct H as (_ & Hcalls & Hinv & _).
  split; [exact Hcalls|exact Hinv].
Defined.

(** ** The property [jobName] of the route

    [_scheduleJob] cancels the handle stored under the property called
    "jobName" and stores the new handle under the name it was passed. The
    mixin passes "_renewJob" and "_expireJob" only, so the property
    "jobName" is never written. *)

Section JobName.
Context {D : Type}.
Implicit Types (w : World D) (cfg : Config) (env : Env D).

Lemma jobName_unset_cancel (h : option nat) w :
  jobName_unset w → jobName_unset (cancel h w).
Proof. unfold jobName_unset, get_prop. by rewrite cancel_props. Qed.

Lemma jobName_unset_scheduleRenew cfg w :
  jobName_unset w → jobName_unset (_scheduleRenew cfg w).
Proof.
  unfold jobName_unset, _scheduleRenew. intros Hw.
  destruct (_ =? 0); [done|]. by rewrite scheduleJob_prop_other.
Qed.

Lemma jobName_unset_scheduleExpire env w :
  jobName_unset w → jobName_unset (_scheduleExpire env w).
Proof.
  unfold jobName_unset. intros Hw.
  by rewrite scheduleExpire_prop_other.
Qed.

Lemma jobName_unset_setupFutureEvents cfg env w :
  jobName_unset w → jobName_unset (_setupFutureEvents cfg env w).
Proof.
  intros Hw. unfold _setupFutureEvents.
  destruct (inTesting cfg || FastBoot_defined cfg); [done|].
  destruct (isAuthenticated _); [|done].
  by apply jobName_unset_scheduleExpire, jobName_unset_scheduleRenew.
Qed.

Lemma jobName_unset_clearJobs w : jobName_unset w → jobName_unset (_clearJobs w).
Proof.
  intros Hw. unfold _clearJobs. by do 2 apply jobName_unset_cancel.
Qed.

Lemma jobName_unset_external (c : Call) (f : Ext D → Settlement * Ext D) w :
  jobName_unset w → jobName_unset (snd (external c f w)).
Proof. unfold external; simpl. by destruct (f (ext w)). Qed.

Lemma jobName_unset_trySilentAuth cfg env w :
  jobName_unset w → jobName_unset (snd (_trySilentAuth cfg env w)).
Proof.
  intros Hw. unfold _trySilentAuth.
  destruct (silentAuthOnSessionExpire cfg); [|done].
  unfold then2, external; simpl.
  by destruct (authenticate env _ (ext w)) as [[| |] e].
Qed.

Lemma jobName_unset_processSessionRenewed cfg env w :
  jobName_unset w → jobName_unset (snd (_processSessionRenewed cfg env w)).
Proof.
  intros Hw. rewrite processSessionRenewed_unfold.
  pose proof (jobName_unset_trySilentAuth cfg env w Hw) as Hs.
  destruct (_trySilentAuth cfg env w) as [[| |] w1]; simpl in *.
  - by apply jobName_unset_scheduleRenew.
  - by apply jobName_unset_setupFutureEvents.
  - done.
Qed.

Lemma jobName_unset_processSessionExpired cfg env w :
  jobName_unset w → jobName_unset (snd (_processSessionExpired cfg env w)).
Proof.
  intros Hw. rewrite processSessionExpired_unfold.
  destruct (beforeSessionExpired env (ext w)) as [[| |] e1]; cbn [snd].
  - assert (Hw1 : jobName_unset
                    (set_ext e1 (record_call CallBeforeSessionExpired w)))
      by done.
    pose proof (jobName_unset_trySilentAuth cfg env _ Hw1) as Hs.
    destruct (_trySilentAuth cfg env _) as [[| |] w2]; cbn [snd] in *.
    + unfold _invalidateIfAuthenticated. by destruct (isAuthenticated _).
    + by apply jobName_unset_scheduleExpire.
    + done.
  - by apply jobName_unset_scheduleExpire.
  - done.
Qed.

Lemma jobName_unset_step cfg env (o : Op) w :
  jobName_unset w → jobName_unset (step cfg env o w).
Proof.
  intros Hw. destruct o as [| | |h|e]; simpl.
  - by apply jobName_unset_setupFutureEvents.
  - by apply jobName_unset_clearJobs.
  - by apply jobName_unset_clearJobs.
  - unfold fire. destruct (list_find _ _) as [[i t]|]; [|done].
    pose proof (jobName_unset_cancel (Some h) w Hw) as Hc.
    destruct (timer_fn t); simpl.
    + by apply jobName_unset_processSessionRenewed.
    + by apply jobName_unset_processSessionExpired.
  - done.
Qed.

(** The property stays unset whatever happens to the route. *)
Lemma jobName_unset_run cfg env (ops : list Op) w :
  jobName_unset w → jobName_unset (run cfg env ops w).
Proof.
  revert w. induction ops as [|o ops IH]; intros w Hw; [done|].
  simpl. apply IH. by apply jobName_unset_step.
Qed.

(** Hence a route that starts without it never cancels anything in
    [_scheduleJob]: every timer pending before the call is pending after
    it, next to the new one. *)
Lemma scheduleJob_never_cancels cfg env (ops : list Op) w0
    (name : string) (fn : JobFn) (ms : Z) :
  jobName_unset w0 →
  let w := run cfg env ops w0 in
  timers (_scheduleJob name fn ms w)
  = timers w ++ [mkTimer (next_timer w) fn ms].
Proof.
  intros Hw0. cbv zeta. apply scheduleJob_timers.
  by apply jobName_unset_run.
Qed.

End JobName.

(** ** One timer per name *)

(** C1, on the code: the on-authenticated setup runs twice in succession
    for an authenticated session. The second run cancels nothing: the
    renew timer and the expire timer of the first run are still pending
    next to those of the second, and only the second pair is recorded
    under [_renewJob] and [_expireJob]. *)
Theorem setup_twice_leaves_duplicates :
  let w := run cfg_on (env_of Resolved)
               [OpSessionAuthenticated; OpSessionAuthenticated] w_auth in
  live ProcessSessionRenewed w
  = [mkTimer 0 ProcessSessionRenewed 5000;
     mkTimer 2 ProcessSessionRenewed 5000]
  ∧ live ProcessSessionExpired w
    = [mkTimer 1 ProcessSessionExpired 60000;
       mkTimer 3 ProcessSessionExpired 60000]
  ∧ get_prop "_renewJob" w = Some 2%nat
  ∧ get_prop "_expireJob" w = Some 3%nat
  ∧ get_prop "jobName" w = None.
Proof. cbv zeta. repeat split; by vm_compute. Qed.

(** ** Teardown *)

(** C8, on the code: the setup runs twice, then the route is destroyed.
    [_clearJobs] cancels the two recorded timers; the two timers of the
    first run stay pending, and when the expire timer among them fires
    the expire job runs to the end and calls [invalidate()]. *)
Theorem teardown_leaves_earlier_timers :
  let w := run cfg_off (env_of Rejected)
               [OpSessionAuthenticated; OpSessionAuthenticated;
                OpWillDestroy] w_auth in
  timers w
  = [mkTimer 0 ProcessSessionRenewed 5000;
     mkTimer 1 ProcessSessionExpired 60000]
  ∧ calls (run cfg_off (env_of Rejected) [OpFire 1%nat] w)
    = [CallBeforeSessionExpired; CallInvalidate].
Proof. cbv zeta. split; by vm_compute. Qed.

(** ** Scheduling and authentication *)

(** C6, on the code: a renew job that fires for a session that is not
    authenticated, silent authentication being disabled, schedules a
    renew timer all the same; and so does a renew job whose provider
    fails after the user has logged out. *)
Theorem renew_job_schedules_unauthenticated :
  (let w := snd (_processSessionRenewed cfg_off (env_of Rejected) w_anon) in
   isAuthenticated (session (ext w_anon)) = false
   ∧ timers w_anon = []
   ∧ isAuthenticated (session (ext w)) = false
   ∧ timers w = [mkTimer 0 ProcessSessionRenewed 5000])
  ∧ (let w := run cfg_on env_logout
                  [OpSessionAuthenticated; OpFire 0%nat] w_auth in
     isAuthenticated (session (ext w)) = false
     ∧ timers w
       = [mkTimer 1 ProcessSessionExpired 60000;
          mkTimer 2 ProcessSessionRenewed 5000]).
Proof. cbv zeta. repeat split; by vm_compute. Qed.

(** * Further properties of the scheduler *)

Section Scheduler.
Context {D : Type}.
Implicit Types (w : World D) (cfg : Config) (env : Env D) (t : Timer).

(** What [cancel] leaves pending. *)
Lemma elem_of_cancel (h : option nat) w t :
  t ∈ timers (cancel h w) ↔ t ∈ timers w ∧ h ≠ Some (timer_id t).
Proof.
  destruct h as [h|]; simpl.
  - rewrite list_elem_of_filter. split.
    + intros [Hne Hin]. split; [done|]. intros [= ->]. by apply Hne.
    + intros [Hin Hne]. split; [|done]. intros Heq. apply Hne. by f_equal.
  - split; [intros Hin; by split|tauto].
Qed.

(** What [_clearJobs] leaves pending. *)
Lemma elem_of_clearJobs w t :
  t ∈ timers (_clearJobs w)
  ↔ t ∈ timers w
    ∧ get_prop "_renewJob" w ≠ Some (timer_id t)
    ∧ get_prop "_expireJob" w ≠ Some (timer_id t).
Proof.
  unfold _clearJobs; cbv zeta. rewrite !elem_of_cancel.
  unfold get_prop. rewrite cancel_props. tauto.
Qed.

Lemma clearJobs_frame w :
  props (_clearJobs w) = props w
  ∧ ext (_clearJobs w) = ext w
  ∧ calls (_clearJobs w) = calls w
  ∧ next_timer (_clearJobs w) = next_timer w.
Proof.
  unfold _clearJobs; cbv zeta.
  by rewrite !cancel_props, !cancel_ext, !cancel_calls, !cancel_next_timer.
Qed.

Lemma scheduleRenew_prop_other cfg w (name : string) :
  name ≠ "_renewJob" →
  get_prop name (_scheduleRenew cfg w) = get_prop name w.
Proof.
  intros Hne. unfold _scheduleRenew. destruct (_ =? 0); [done|].
  by apply scheduleJob_prop_other.
Qed.

Lemma scheduleRenew_next_timer cfg w :
  next_timer (_scheduleRenew cfg w)
  = if silentAuthRenewSeconds cfg * 1000 =? 0 then next_timer w
    else S (next_timer w).
Proof.
  unfold _scheduleRenew. destruct (_ =? 0); [done|].
  apply scheduleJob_next_timer.
Qed.

Lemma scheduleRenew_memo cfg w :
  remaining_memo (_scheduleRenew cfg w) = remaining_memo w.
Proof.
  unfold _scheduleRenew. destruct (_ =? 0); [done|apply scheduleJob_memo].
Qed.

Lemma read_after_scheduleRenew cfg env w :
  fst (read_jwtRemainingTimeInSeconds env (_scheduleRenew cfg w))
  = fst (read_jwtRemainingTimeInSeconds env w).
Proof.
  apply read_jwtRemainingTimeInSeconds_ext;
    [apply scheduleRenew_ext|apply scheduleRenew_memo].
Qed.

Lemma jwtRemainingTimeInSeconds_ext env w w' :
  ext w' = ext w →
  _jwtRemainingTimeInSeconds env w' = _jwtRemainingTimeInSeconds env w.
Proof.
  intros Hext. unfold _jwtRemainingTimeInSeconds, _expiresAt. by rewrite Hext.
Qed.

End Scheduler.

(** ** Suppressed environments *)

(** X1: under test or under FastBoot a route that starts with no pending
    timer never gets one, whatever happens to it: no timer is scheduled,
    no handle is recorded, and the mixin itself calls neither the hook nor
    the session service. All it does is hand [sessionAuthenticated] and
    [sessionInvalidated] on to the base mixin, once for each. *)
Theorem suppressed_route_stays_idle {D : Type} (cfg : Config) (env : Env D)
    (ops : list Op) (w : World D) :
  inTesting cfg = true ∨ FastBoot_defined cfg = true →
  timers w = [] →
  timers (run cfg env ops w) = []
  ∧ props (run cfg env ops w) = props w
  ∧ next_timer (run cfg env ops w) = next_timer w
  ∧ calls (run cfg env ops w) = calls w
  ∧ base_calls (run cfg env ops w) = base_calls w ++ supers_of ops.
Proof.
  intros Hs. revert w.
  induction ops as [|o ops IH]; intros w Hnil.
  { simpl. by rewrite app_nil_r. }
  assert (Hstep : timers (step cfg env o w) = []
                  ∧ props (step cfg env o w) = props w
                  ∧ next_timer (step cfg env o w) = next_timer w
                  ∧ calls (step cfg env o w) = calls w
                  ∧ base_calls (step cfg env o w)
                    = base_calls w ++ supers_of [o]).
  { destruct o as [| | |h|e]; simpl.
    - unfold sessionAuthenticated.
      by rewrite (setupFutureEvents_suppressed cfg env w Hs).
    - unfold sessionInvalidated. by rewrite (clearJobs_idle w Hnil).
    - unfold willDestroy. rewrite (clearJobs_idle w Hnil).
      by rewrite app_nil_r.
    - unfold fire. rewrite Hnil. simpl. by rewrite app_nil_r.
    - by rewrite app_nil_r. }
  destruct Hstep as (Ht & Hp & Hn & Hc & Hb).
  destruct (IH (step cfg env o w) Ht) as (Ht' & Hp' & Hn' & Hc' & Hb').
  change (run cfg env (o :: ops) w) with (run cfg env ops (step cfg env o w)).
  rewrite Ht', Hp', Hn', Hc', Hb', Hp, Hn, Hc, Hb, <- app_assoc.
  repeat split. f_equal. by destruct o.
Qed.

(** Under test: log in, fire, log out, tear down; nothing is pending. *)
Lemma suppressed_route_stays_idle_witness :
  timers (run cfg_test (env_of Resolved)
              [OpSessionAuthenticated; OpFire 0%nat; OpSessionInvalidated;
               OpSessionAuthenticated; OpWillDestroy] w_auth) = []
  ∧ base_calls (run cfg_test (env_of Resolved)
              [OpSessionAuthenticated; OpFire 0%nat; OpSessionInvalidated;
               OpSessionAuthenticated; OpWillDestroy] w_auth)
    = [SuperSessionAuthenticated; SuperSessionInvalidated;
       SuperSessionAuthenticated].
Proof.
  pose proof (suppressed_route_stays_idle cfg_test (env_of Resolved)
                [OpSessionAuthenticated; OpFire 0%nat; OpSessionInvalidated;
                 OpSessionAuthenticated; OpWillDestroy] w_auth
                (or_introl eq_refl) eq_refl) as H.
  destruct H as (Htimers & _ & _ & _ & Hbase).
  split; [exact Htimers|exact Hbase].
Defined.

(** ** What the setup schedules *)

(** The setup for an authenticated session with a renewal interval. *)
Lemma setupFutureEvents_authenticated {D : Type} (cfg : Config)
    (env : Env D) (w : World D) :
  inTesting cfg = false →
  FastBoot_defined cfg = false →
  isAuthenticated (session (ext w)) = true →
  silentAuthRenewSeconds cfg ≠ 0 →
  jobName_unset w →
  let w' := _setupFutureEvents cfg env w in
  timers w'
  = timers w
    ++ [mkTimer (next_timer w) ProcessSessionRenewed
                (silentAuthRenewSeconds cfg * 1000);
        mkTimer (S (next_timer w)) ProcessSessionExpired
                (fst (read_jwtRemainingTimeInSeconds env w) * 1000)]
  ∧ get_prop "_renewJob" w' = Some (next_timer w)
  ∧ get_prop "_expireJob" w' = Some (S (next_timer w))
  ∧ next_timer w' = S (S (next_timer w))
  ∧ calls w' = calls w
  ∧ ext w' = ext w.
Proof.
  intros Ht Hf Hauth Hsecs Hjob. cbv zeta.
  assert (Hrenew : _scheduleRenew cfg w
                   = _scheduleJob "_renewJob" ProcessSessionRenewed
                       (silentAuthRenewSeconds cfg * 1000) w).
  { unfold _scheduleRenew.
    destruct (Z.eqb_spec (silentAuthRenewSeconds cfg * 1000) 0); [lia|done]. }
  assert (Hsetup : _setupFutureEvents cfg env w
                   = _scheduleExpire env (_scheduleRenew cfg w)).
  { unfold _setupFutureEvents. by rewrite Ht, Hf, Hauth. }
  rewrite Hsetup. clear Hsetup.
  pose proof (read_after_scheduleRenew cfg env w) as Hread.
  rewrite Hrenew in *. clear Hrenew.
  set (w1 := _scheduleJob "_renewJob" ProcessSessionRenewed
               (silentAuthRenewSeconds cfg * 1000) w) in *.
  assert (Hjob1 : get_prop "jobName" w1 = None).
  { unfold w1. by rewrite scheduleJob_prop_other. }
  assert (Hext1 : ext w1 = ext w) by apply scheduleJob_ext.
  assert (Hnext1 : next_timer w1 = S (next_timer w))
    by apply scheduleJob_next_timer.
  assert (Htimers1 : timers w1
                     = timers w ++ [mkTimer (next_timer w) ProcessSessionRenewed
                                      (silentAuthRenewSeconds cfg * 1000)])
    by (by apply scheduleJob_timers).
  assert (Hrenew1 : get_prop "_renewJob" w1 = Some (next_timer w))
    by apply scheduleJob_prop.
  assert (Hcalls1 : calls w1 = calls w) by apply scheduleJob_calls.
  clearbody w1.
  rewrite (scheduleExpire_timers env w1 Hjob1), Hread.
  rewrite scheduleExpire_prop_other by done.
  rewrite scheduleExpire_prop, scheduleExpire_next, scheduleExpire_calls,
    scheduleExpire_ext.
  rewrite Htimers1, Hnext1, Hrenew1, Hcalls1, Hext1, <- app_assoc.
  done.
Qed.

(** X2: for an authenticated session, outside test and FastBoot and with
    a renewal interval, the setup adds two timers behind those that are
    pending: the renew timer, [silentAuthRenewSeconds * 1000] ms ahead,
    then the expire timer, 1000 times what [_jwtRemainingTimeInSeconds]
    reads as (memoised or computed) ahead; their handles are recorded
    under [_renewJob] and [_expireJob]; neither the hook nor the session
    service is called. *)
Theorem setup_schedules_renew_then_expire {D : Type} (cfg : Config)
    (env : Env D) (w : World D) :
  inTesting cfg = false →
  FastBoot_defined cfg = false →
  isAuthenticated (session (ext w)) = true →
  silentAuthRenewSeconds cfg ≠ 0 →
  jobName_unset w →
  let w' := _setupFutureEvents cfg env w in
  timers w'
  = timers w
    ++ [mkTimer (next_timer w) ProcessSessionRenewed
                (silentAuthRenewSeconds cfg * 1000);
        mkTimer (S (next_timer w)) ProcessSessionExpired
                (fst (read_jwtRemainingTimeInSeconds env w) * 1000)]
  ∧ get_prop "_renewJob" w' = Some (next_timer w)
  ∧ get_prop "_expireJob" w' = Some (S (next_timer w))
  ∧ next_timer w' = S (S (next_timer w))
  ∧ calls w' = calls w
  ∧ ext w' = ext w.
Proof.
  intros Ht Hf Hauth Hsecs Hjob.
  exact (setupFutureEvents_authenticated cfg env w Ht Hf Hauth Hsecs Hjob).
Qed.

(** A token with 60 seconds left, renewal every 5 seconds. *)
Lemma setup_schedules_renew_then_expire_witness :
  timers (_setupFutureEvents cfg_on (env_of Resolved) w_auth)
  = [mkTimer 0 ProcessSessionRenewed 5000;
     mkTimer 1 ProcessSessionExpired 60000].
Proof.
  apply (setup_schedules_renew_then_expire cfg_on (env_of Resolved) w_auth
           eq_refl eq_refl eq_refl).
  - simpl. lia.
  - reflexivity.
Defined.

(** X3: with a renewal interval of 0 the setup schedules the expire
    timer alone, 1000 times what [_jwtRemainingTimeInSeconds] reads as
    (memoised or computed) ahead, and leaves what is recorded under
    [_renewJob] as it is. *)
Theorem setup_without_renewal_schedules_expire_only {D : Type}
    (cfg : Config) (env : Env D) (w : World D) :
  inTesting cfg = false →
  FastBoot_defined cfg = false →
  isAuthenticated (session (ext w)) = true →
  silentAuthRenewSeconds cfg = 0 →
  jobName_unset w →
  let w' := _setupFutureEvents cfg env w in
  timers w'
  = timers w
    ++ [mkTimer (next_timer w) ProcessSessionExpired
                (fst (read_jwtRemainingTimeInSeconds env w) * 1000)]
  ∧ get_prop "_renewJob" w' = get_prop "_renewJob" w
  ∧ get_prop "_expireJob" w' = Some (next_timer w).
Proof.
  intros Ht Hf Hauth Hsecs Hjob. cbv zeta.
  assert (Hsetup : _setupFutureEvents cfg env w = _scheduleExpire env w).
  { unfold _setupFutureEvents, _scheduleRenew.
    by rewrite Ht, Hf, Hauth, Hsecs. }
  rewrite Hsetup.
  rewrite (scheduleExpire_timers env w Hjob).
  rewrite scheduleExpire_prop_other by done.
  by rewrite scheduleExpire_prop.
Qed.

Lemma setup_without_renewal_schedules_expire_only_witness :
  timers (_setupFutureEvents cfg_plain (env_of Resolved) w_auth)
  = [mkTimer 0 ProcessSessionExpired 60000].
Proof.
  apply (setup_without_renewal_schedules_expire_only cfg_plain
           (env_of Resolved) w_auth eq_refl eq_refl eq_refl eq_refl eq_refl).
Defined.

(** ** Sessions with no time left *)

(** X4: for a session that is not authenticated the expiration instant is
    0 whatever the session data holds and whatever the extractor would
    make of it, so that from the epoch on no time is left. *)
Theorem logged_out_session_has_no_time_left {D : Type} (env : Env D)
    (w : World D) :
  isAuthenticated (session (ext w)) = false →
  0 <= now (ext w) →
  _expiresAt env w = Some 0 ∧ _jwtRemainingTimeInSeconds env w = 0.
Proof.
  intros Hanon Hnow.
  assert (Hexp : _expiresAt env w = Some 0).
  { unfold _expiresAt. by rewrite Hanon. }
  split; [done|].
  unfold _jwtRemainingTimeInSeconds. rewrite Hexp; simpl.
  destruct (Z.ltb_spec (0 - now (ext w)) 0); lia.
Qed.

(** Logged out, with session data that reads 160, at second 100. *)
Lemma logged_out_session_has_no_time_left_witness :
  _jwtRemainingTimeInSeconds (env_of Resolved) w_anon = 0.
Proof.
  apply (logged_out_session_has_no_time_left (env_of Resolved) w_anon
           eq_refl).
  simpl. lia.
Defined.

(** X5: a token that has already expired (or whose expiration the
    extractor does not yield, from the epoch on) does not stop the setup
    from scheduling the expire job: when no remaining time is memoised
    for the session as it is, the timer is pending with a delay of 0 and
    its handle is recorded under [_expireJob]. *)
Theorem expired_token_expires_at_once {D : Type} (cfg : Config) (env : Env D)
    (w : World D) :
  memoised w = None →
  inTesting cfg = false →
  FastBoot_defined cfg = false →
  isAuthenticated (session (ext w)) = true →
  default 0 (getSessionExpiration env (data_authenticated (session (ext w))))
  <= now (ext w) →
  ∃ h : nat,
    get_prop "_expireJob" (_setupFutureEvents cfg env w) = Some h
    ∧ mkTimer h ProcessSessionExpired 0
      ∈ timers (_setupFutureEvents cfg env w).
Proof.
  intros Hnone Ht Hf Hauth Hle.
  assert (Hsetup : _setupFutureEvents cfg env w
                   = _scheduleExpire env (_scheduleRenew cfg w)).
  { unfold _setupFutureEvents. by rewrite Ht, Hf, Hauth. }
  assert (Hzero : fst (read_jwtRemainingTimeInSeconds env
                         (_scheduleRenew cfg w)) = 0).
  { rewrite read_after_scheduleRenew.
    rewrite (read_jwtRemainingTimeInSeconds_computes env w Hnone). cbn [fst].
    unfold _jwtRemainingTimeInSeconds, _expiresAt. rewrite Hauth; simpl.
    destruct (Z.ltb_spec
                (default 0 (getSessionExpiration env
                              (data_authenticated (session (ext w))))
                 - now (ext w)) 0); lia. }
  exists (next_timer (_scheduleRenew cfg w)).
  rewrite Hsetup. split.
  - apply scheduleExpire_prop.
  - pose proof (scheduleExpire_pending env (_scheduleRenew cfg w)) as Hin.
    by rewrite Hzero in Hin.
Qed.

(** A token that expired 40 seconds ago. *)
Lemma expired_token_expires_at_once_witness :
  ∃ h : nat,
    get_prop "_expireJob" (_setupFutureEvents cfg_on (env_of Resolved) w_expired)
    = Some h
    ∧ mkTimer h ProcessSessionExpired 0
      ∈ timers (_setupFutureEvents cfg_on (env_of Resolved) w_expired).
Proof.
  apply (expired_token_expires_at_once cfg_on (env_of Resolved) w_expired
           eq_refl eq_refl eq_refl eq_refl).
  simpl. lia.
Defined.

(** ** What teardown cancels *)

(** X6: [_clearJobs] cancels the timers whose handles are recorded under
    [_renewJob] and [_expireJob] and no other: a timer is pending
    afterwards exactly when it was pending before and its handle is
    recorded under neither name. The recorded handles themselves, the
    session and the calls made stay as they were. *)
Theorem clearJobs_cancels_exactly_recorded {D : Type} (w : World D) :
  (∀ t : Timer,
     t ∈ timers (_clearJobs w)
     ↔ t ∈ timers w
       ∧ get_prop "_renewJob" w ≠ Some (timer_id t)
       ∧ get_prop "_expireJob" w ≠ Some (timer_id t))
  ∧ props (_clearJobs w) = props w
  ∧ ext (_clearJobs w) = ext w
  ∧ calls (_clearJobs w) = calls w.
Proof.
  split; [intros t; apply elem_of_clearJobs|].
  destruct (clearJobs_frame w) as (Hp & He & Hc & _). done.
Qed.

(** X7: whatever one run of the setup schedules, the teardown that
    follows cancels: every timer pending after setup and [_clearJobs] was
    pending before the setup. In particular a route with nothing pending
    has nothing pending afterwards. *)
Theorem setup_then_clearJobs_leaves_nothing_new {D : Type} (cfg : Config)
    (env : Env D) (w : World D) :
  (∀ t : Timer,
     t ∈ timers (_clearJobs (_setupFutureEvents cfg env w)) → t ∈ timers w)
  ∧ (timers w = [] →
     timers (_clearJobs (_setupFutureEvents cfg env w)) = []).
Proof.
  assert (Hfrom : ∀ t : Timer,
            t ∈ timers (_clearJobs (_setupFutureEvents cfg env w)) →
            t ∈ timers w).
  { intros t [Hin [Hr He]]%elem_of_clearJobs. revert Hin Hr He.
    unfold _setupFutureEvents.
    destruct (inTesting cfg || FastBoot_defined cfg); [done|].
    destruct (isAuthenticated (session (ext w))); [|done].
    rewrite scheduleExpire_prop.
    rewrite scheduleExpire_prop_other by done.
    intros [Hin | ->]%scheduleExpire_timers_from Hr He; [|by destruct He].
    revert Hin Hr. unfold _scheduleRenew.
    destruct (_ =? 0); [done|].
    rewrite scheduleJob_prop.
    intros [Hin | ->]%scheduleJob_timers_from Hr; [done|by destruct Hr]. }
  split; [exact Hfrom|].
  intros Hnil. apply elem_of_nil_inv. intros t Hin.
  apply Hfrom in Hin. rewrite Hnil in Hin. by apply elem_of_nil in Hin.
Qed.

(** One setup and one teardown of a fresh route. *)
Lemma setup_then_clearJobs_leaves_nothing_new_witness :
  timers (_clearJobs (_setupFutureEvents cfg_on (env_of Resolved) w_auth)) = [].
Proof.
  apply (proj2 (setup_then_clearJobs_leaves_nothing_new cfg_on
                  (env_of Resolved) w_auth) eq_refl).
Defined.

(** ** What the jobs call *)

Section Jobs.
Context {D : Type}.
Implicit Types (w : World D) (cfg : Config) (env : Env D).

Lemma authentications_set_ext (e : Ext D) w :
  authentications (set_ext e w) = authentications w.
Proof. reflexivity. Qed.

Lemma invalidations_calls w w' (l : list Call) :
  calls w' = calls w ++ l →
  invalidations w'
  = (invalidations w + length (filter (λ c, c = CallInvalidate) l))%nat.
Proof.
  intros Hc. unfold invalidations. by rewrite Hc, filter_app, length_app.
Qed.

Lemma authentications_calls w w' (l : list Call) :
  calls w' = calls w ++ l →
  authentications w'
  = (authentications w + length (List.filter is_authenticate l))%nat.
Proof.
  intros Hc. unfold authentications.
  by rewrite Hc, List.filter_app, length_app.
Qed.

(** The helper calls the provider at most once, schedules nothing and
    invalidates nothing. *)
Lemma trySilentAuth_frame cfg env w :
  calls (snd (_trySilentAuth cfg env w))
  = calls w ++ (if silentAuthOnSessionExpire cfg
                then [CallAuthenticate silent] else [])
  ∧ timers (snd (_trySilentAuth cfg env w)) = timers w
  ∧ props (snd (_trySilentAuth cfg env w)) = props w
  ∧ next_timer (snd (_trySilentAuth cfg env w)) = next_timer w.
Proof.
  destruct (silentAuthOnSessionExpire cfg) eqn:Hflag.
  - destruct (authenticate env silent (ext w)) as [r e] eqn:Hauth.
    by rewrite (trySilentAuth_enabled cfg env w r e Hflag Hauth).
  - rewrite (trySilentAuth_disabled cfg env w Hflag); simpl.
    by rewrite app_nil_r.
Qed.

End Jobs.

(** X8: the renew job calls nothing but the provider, and that at most
    once: its calls are one [session.authenticate] with the silent
    authenticator when silent authentication is enabled and none when it
    is not. It never calls the pre-expiration hook and never invalidates
    the session. *)
Theorem renew_job_only_calls_the_provider {D : Type} (cfg : Config)
    (env : Env D) (w : World D) :
  calls (snd (_processSessionRenewed cfg env w))
  = calls w ++ (if silentAuthOnSessionExpire cfg
                then [CallAuthenticate silent] else [])
  ∧ invalidations (snd (_processSessionRenewed cfg env w)) = invalidations w.
Proof.
  assert (Hcalls : calls (snd (_processSessionRenewed cfg env w))
                   = calls w ++ (if silentAuthOnSessionExpire cfg
                                 then [CallAuthenticate silent] else [])).
  { rewrite processSessionRenewed_unfold.
    destruct (trySilentAuth_frame cfg env w) as (Hc & _).
    destruct (_trySilentAuth cfg env w) as [[| |] w1]; cbn [snd] in *.
    - by rewrite scheduleRenew_calls.
    - by rewrite setupFutureEvents_calls.
    - done. }
  split; [exact Hcalls|].
  rewrite (invalidations_calls w _ _ Hcalls).
  destruct (silentAuthOnSessionExpire cfg); vm_compute length; lia.
Qed.

(** X9: a pre-expiration hook whose promise is rejected makes the expire
    job reschedule itself: the provider is not asked, the session is not
    invalidated, and a new expire timer is pending, its handle recorded
    under [_expireJob], its delay 1000 times what
    [_jwtRemainingTimeInSeconds] reads as when the hook has settled: the
    memoised value while the session has not been set, however far the
    clock has moved. *)
Theorem rejected_hook_reschedules_expiry {D : Type} (cfg : Config)
    (env : Env D) (w : World D) (e1 : Ext D) :
  beforeSessionExpired env (ext w) = (Rejected, e1) →
  let w' := snd (_processSessionExpired cfg env w) in
  fst (_processSessionExpired cfg env w) = Resolved
  ∧ calls w' = calls w ++ [CallBeforeSessionExpired]
  ∧ mkTimer (next_timer w) ProcessSessionExpired
            (fst (read_jwtRemainingTimeInSeconds env (set_ext e1 w)) * 1000)
    ∈ timers w'
  ∧ get_prop "_expireJob" w' = Some (next_timer w).
Proof.
  intros Hhook. cbv zeta.
  rewrite processSessionExpired_unfold, Hhook; cbn [fst snd].
  set (w1 := set_ext e1 (record_call CallBeforeSessionExpired w)).
  assert (Hread : fst (read_jwtRemainingTimeInSeconds env w1)
                  = fst (read_jwtRemainingTimeInSeconds env (set_ext e1 w)))
    by (by apply read_jwtRemainingTimeInSeconds_ext).
  rewrite <- Hread.
  split; [done|]. split; [by rewrite scheduleExpire_calls|].
  split.
  - exact (scheduleExpire_pending env w1).
  - exact (scheduleExpire_prop env w1).
Qed.

(** The hook rejects: nobody else is called and the expire job is
    pending again. *)
Lemma rejected_hook_reschedules_expiry_witness :
  calls (snd (_processSessionExpired cfg_on env_hook_rejects w_auth))
  = [CallBeforeSessionExpired]
  ∧ mkTimer 0 ProcessSessionExpired 60000
    ∈ timers (snd (_processSessionExpired cfg_on env_hook_rejects w_auth)).
Proof.
  pose proof (rejected_hook_reschedules_expiry cfg_on env_hook_rejects w_auth
                (ext w_auth) eq_refl) as H.
  cbv zeta in H. destruct H as (_ & Hcalls & Hin & _).
  split; [exact Hcalls|exact Hin].
Defined.

(** X10: one run of the expire job either invalidates the session, once,
    and then schedules and records nothing, or does not invalidate it. It
    asks the provider at most once and schedules at most one timer. *)
Theorem expire_job_invalidates_or_reschedules {D : Type} (cfg : Config)
    (env : Env D) (w : World D) :
  (invalidations (snd (_processSessionExpired cfg env w)) = invalidations w
   ∨ invalidations (snd (_processSessionExpired cfg env w))
     = S (invalidations w)
     ∧ timers (snd (_processSessionExpired cfg env w)) = timers w
     ∧ props (snd (_processSessionExpired cfg env w)) = props w)
  ∧ (authentications (snd (_processSessionExpired cfg env w))
     ≤ S (authentications w))%nat
  ∧ (next_timer (snd (_processSessionExpired cfg env w))
     ≤ S (next_timer w))%nat.
Proof.
  rewrite processSessionExpired_unfold.
  destruct (beforeSessionExpired env (ext w)) as [[| |] e1]; cbn [snd].
  - set (w1 := set_ext e1 (record_call CallBeforeSessionExpired w)).
    assert (Hc1 : calls w1 = calls w ++ [CallBeforeSessionExpired]) by done.
    assert (Hn1 : next_timer w1 = next_timer w) by done.
    assert (Ht1 : timers w1 = timers w) by done.
    assert (Hp1 : props w1 = props w) by done.
    clearbody w1.
    destruct (trySilentAuth_frame cfg env w1) as (Hc & Ht & Hp & Hn).
    rewrite Hc1, <- app_assoc in Hc. rewrite Ht1 in Ht. rewrite Hp1 in Hp.
    rewrite Hn1 in Hn.
    destruct (_trySilentAuth cfg env w1) as [[| |] w2]; cbn [snd] in *.
    + unfold _invalidateIfAuthenticated.
      destruct (isAuthenticated (session (ext w2))).
      * assert (Hc3 : calls (record_call CallInvalidate w2)
                      = calls w ++ ([CallBeforeSessionExpired]
                           ++ (if silentAuthOnSessionExpire cfg
                               then [CallAuthenticate silent] else []))
                          ++ [CallInvalidate]).
        { simpl. by rewrite Hc, <- !app_assoc. }
        rewrite (invalidations_calls w _ _ Hc3),
          (authentications_calls w _ _ Hc3).
        simpl timers; simpl props; simpl next_timer.
        rewrite Ht, Hp, Hn.
        destruct (silentAuthOnSessionExpire cfg); vm_compute length;
          (split; [right; split; [lia|done]|lia]).
      * rewrite (invalidations_calls w _ _ Hc),
          (authentications_calls w _ _ Hc), Hn.
        destruct (silentAuthOnSessionExpire cfg); vm_compute length;
          (split; [left; lia|lia]).
    + assert (Hc3 : calls (_scheduleExpire env w2)
                    = calls w ++ [CallBeforeSessionExpired]
                        ++ (if silentAuthOnSessionExpire cfg
                            then [CallAuthenticate silent] else []))
        by (by rewrite scheduleExpire_calls).
      rewrite (invalidations_calls w _ _ Hc3),
        (authentications_calls w _ _ Hc3), scheduleExpire_next, Hn.
      destruct (silentAuthOnSessionExpire cfg); vm_compute length;
        (split; [left; lia|lia]).
    + rewrite (invalidations_calls w _ _ Hc),
        (authentications_calls w _ _ Hc), Hn.
      destruct (silentAuthOnSessionExpire cfg); vm_compute length;
        (split; [left; lia|lia]).
  - set (w1 := set_ext e1 (record_call CallBeforeSessionExpired w)).
    assert (Hc3 : calls (_scheduleExpire env w1)
                  = calls w ++ [CallBeforeSessionExpired])
      by (by rewrite scheduleExpire_calls).
    rewrite (invalidations_calls w _ _ Hc3),
      (authentications_calls w _ _ Hc3), scheduleExpire_next.
    vm_compute length. simpl next_timer. split; [left; lia|lia].
  - set (w1 := set_ext e1 (record_call CallBeforeSessionExpired w)).
    assert (Hc1 : calls w1 = calls w ++ [CallBeforeSessionExpired]) by done.
    rewrite (invalidations_calls w _ _ Hc1),
      (authentications_calls w _ _ Hc1).
    vm_compute length. simpl next_timer. split; [left; lia|lia].
Qed.

(** ** A renewal that succeeds *)

(** X11: the renew job fires, silent authentication is enabled, the
    provider succeeds and the session is authenticated when it has;
    outside test and FastBoot and with a renewal interval. Then the
    provider has been called once, a new renew timer and a new expire
    timer are pending behind the others, recorded under [_renewJob] and
    [_expireJob], the expire timer 1000 times what
    [_jwtRemainingTimeInSeconds] reads as (memoised, or computed if the
    session has been set) ahead, and the session is not invalidated. *)
Theorem renewal_success_schedules_both {D : Type} (cfg : Config)
    (env : Env D) (w : World D) (e : Ext D) :
  silentAuthOnSessionExpire cfg = true →
  inTesting cfg = false →
  FastBoot_defined cfg = false →
  silentAuthRenewSeconds cfg ≠ 0 →
  jobName_unset w →
  authenticate env silent (ext w) = (Resolved, e) →
  isAuthenticated (session e) = true →
  let w' := snd (_processSessionRenewed cfg env w) in
  timers w'
  = timers w
    ++ [mkTimer (next_timer w) ProcessSessionRenewed
                (silentAuthRenewSeconds cfg * 1000);
        mkTimer (S (next_timer w)) ProcessSessionExpired
                (fst (read_jwtRemainingTimeInSeconds env (set_ext e w))
                 * 1000)]
  ∧ get_prop "_renewJob" w' = Some (next_timer w)
  ∧ get_prop "_expireJob" w' = Some (S (next_timer w))
  ∧ calls w' = calls w ++ [CallAuthenticate silent]
  ∧ invalidations w' = invalidations w.
Proof.
  intros Hflag Ht Hf Hsecs Hjob Hauth Hsession. cbv zeta.
  rewrite processSessionRenewed_unfold.
  rewrite (trySilentAuth_enabled cfg env w Resolved e Hflag Hauth).
  cbn [snd].
  set (w1 := set_ext e (record_call (CallAuthenticate silent) w)).
  assert (Hread : fst (read_jwtRemainingTimeInSeconds env w1)
                  = fst (read_jwtRemainingTimeInSeconds env (set_ext e w)))
    by (by apply read_jwtRemainingTimeInSeconds_ext).
  destruct (setupFutureEvents_authenticated cfg env w1 Ht Hf Hsession Hsecs
              Hjob) as (Htimers & Hrenew & Hexpire & _ & Hcalls & _).
  rewrite Hread in Htimers.
  split; [exact Htimers|]. split; [exact Hrenew|]. split; [exact Hexpire|].
  split; [exact Hcalls|].
  rewrite (invalidations_calls w _ [CallAuthenticate silent] Hcalls).
  vm_compute length. lia.
Qed.

(** The provider succeeds for the session of [w_auth]. *)
Lemma renewal_success_schedules_both_witness :
  timers (snd (_processSessionRenewed cfg_on (env_of Resolved) w_auth))
  = [mkTimer 0 ProcessSessionRenewed 5000;
     mkTimer 1 ProcessSessionExpired 60000].
Proof.
  apply (renewal_success_schedules_both cfg_on (env_of Resolved) w_auth
           (ext w_auth) eq_refl eq_refl eq_refl).
  - simpl. lia.
  - reflexivity.
  - reflexivity.
  - reflexivity.
Defined.

(** ** Expiry without renewal *)

(** X12: no scheduled renewal, silent authentication on expiry disabled,
    a fresh route and an authenticated session. The setup schedules the
    expire timer alone (the remaining seconds times 1000 ahead when
    nothing is memoised, and 1000 times the memoised value otherwise);
    when it fires, the hook resolving and the session still being
    authenticated, [session.invalidate()] is called exactly once after
    the hook, and nothing stays pending. *)
Theorem expiry_without_renewal_invalidates_once {D : Type} (cfg : Config)
    (env : Env D) (w : World D) (e1 : Ext D) :
  inTesting cfg = false →
  FastBoot_defined cfg = false →
  silentAuthRenewSeconds cfg = 0 →
  silentAuthOnSessionExpire cfg = false →
  timers w = [] →
  jobName_unset w →
  isAuthenticated (session (ext w)) = true →
  beforeSessionExpired env (ext w) = (Resolved, e1) →
  isAuthenticated (session e1) = true →
  timers (run cfg env [OpSessionAuthenticated] w)
  = [mkTimer (next_timer w) ProcessSessionExpired
             (fst (read_jwtRemainingTimeInSeconds env w) * 1000)]
  ∧ (memoised w = None →
     timers (run cfg env [OpSessionAuthenticated] w)
     = [mkTimer (next_timer w) ProcessSessionExpired
                (_jwtRemainingTimeInSeconds env w * 1000)])
  ∧ timers (run cfg env [OpSessionAuthenticated; OpFire (next_timer w)] w)
    = []
  ∧ calls (run cfg env [OpSessionAuthenticated; OpFire (next_timer w)] w)
    = calls w ++ [CallBeforeSessionExpired; CallInvalidate]
  ∧ invalidations
      (run cfg env [OpSessionAuthenticated; OpFire (next_timer w)] w)
    = S (invalidations w).
Proof.
  intros Ht Hf Hsecs Hflag Hnil Hjob Hauth Hhook Hauth1.
  assert (Hsetup : _setupFutureEvents cfg env w = _scheduleExpire env w).
  { unfold _setupFutureEvents, _scheduleRenew.
    by rewrite Ht, Hf, Hauth, Hsecs. }
  unfold run; cbn [foldl step]. unfold sessionAuthenticated.
  rewrite Hsetup. clear Hsetup.
  assert (Htimers : timers (_scheduleExpire env w)
                    = [mkTimer (next_timer w) ProcessSessionExpired
                               (fst (read_jwtRemainingTimeInSeconds env w)
                                * 1000)]).
  { rewrite (scheduleExpire_timers env w Hjob). by rewrite Hnil. }
  pose proof (scheduleExpire_ext env w) as Hext.
  pose proof (scheduleExpire_calls env w) as Hcalls.
  set (w0 := _scheduleExpire env w) in *. clearbody w0.
  set (w1 := call_super SuperSessionAuthenticated w0).
  assert (Htimers1 : timers w1 = timers w0) by done.
  rewrite Htimers1. split; [exact Htimers|].
  split.
  { intros Hnone. rewrite Htimers.
    by rewrite (read_jwtRemainingTimeInSeconds_computes env w Hnone). }
  set (w2 := cancel (Some (next_timer w)) w1).
  assert (Ht2 : timers w2 = []).
  { unfold w2; simpl. rewrite Htimers, filter_cons, filter_nil. simpl.
    by rewrite decide_False by (by intros H). }
  assert (Hfire : fire cfg env (next_timer w) w1
                  = record_call CallInvalidate
                      (set_ext e1 (record_call CallBeforeSessionExpired w2))).
  { unfold fire. rewrite Htimers1, Htimers. simpl list_find.
    rewrite decide_True by done. cbn [fmap option_fmap option_map prod_map
                                        fst snd timer_fn run_job].
    fold w2.
    rewrite processSessionExpired_unfold.
    assert (Hext2 : ext w2 = ext w) by (unfold w2; by rewrite cancel_ext).
    rewrite Hext2, Hhook.
    rewrite (trySilentAuth_disabled cfg env _ Hflag). cbn [snd].
    unfold _invalidateIfAuthenticated.
    change (ext (set_ext e1 (record_call CallBeforeSessionExpired w2)))
      with e1.
    by rewrite Hauth1. }
  rewrite Hfire. clear Hfire.
  assert (Hc2 : calls (record_call CallInvalidate
                         (set_ext e1 (record_call CallBeforeSessionExpired w2)))
                = calls w ++ [CallBeforeSessionExpired; CallInvalidate]).
  { cbn [calls record_call set_ext]. unfold w2.
    by rewrite cancel_calls, <- app_assoc; simpl; rewrite Hcalls. }
  split; [exact Ht2|]. split; [exact Hc2|].
  rewrite (invalidations_calls w _ _ Hc2). vm_compute length. lia.
Qed.

(** The token of [w_auth], nothing else configured. *)
Lemma expiry_without_renewal_invalidates_once_witness :
  calls (run cfg_plain (env_of Resolved)
             [OpSessionAuthenticated; OpFire 0%nat] w_auth)
  = [CallBeforeSessionExpired; CallInvalidate].
Proof.
  apply (expiry_without_renewal_invalidates_once cfg_plain (env_of Resolved)
           w_auth (ext w_auth) eq_refl eq_refl eq_refl eq_refl eq_refl eq_refl
           eq_refl eq_refl eq_refl).
Defined.

(** * The URL hash *)

Section UrlHashFacts.
Context {D E P R : Type}.
Implicit Types (cfg : Config) (env : Env D) (uenv : UrlEnv D E P R)
  (pg : Page D) (data : option P).

Lemma setupFutureEvents_ext cfg env (w : World D) :
  ext (_setupFutureEvents cfg env w) = ext w.
Proof.
  unfold _setupFutureEvents.
  destruct (inTesting cfg || FastBoot_defined cfg); [done|].
  destruct (isAuthenticated _); [|done].
  by rewrite scheduleExpire_ext, scheduleRenew_ext.
Qed.

(** [beforeModel], read off the answers of the outside. *)
Lemma beforeModel_unfold cfg env uenv pg :
  beforeModel cfg env uenv pg
  = let pg1 := with_route (_setupFutureEvents cfg env (route pg)) pg in
    let a := super_beforeModel uenv (ext (route pg)) in
    let pg2 := with_route (set_ext (snd a) (route pg1)) pg1 in
    match fst a with
    | Ok =>
        match _getUrlHashData cfg uenv pg2 with
        | (Fulfilled data, pg3) => _authenticateWithUrlHash cfg uenv data pg3
        | (Failed why, pg3) => (Failed why, pg3)
        | (Unsettled, pg3) => (Unsettled, pg3)
        end
    | Err r => (Failed (Outside r), pg2)
    | Silent => (Unsettled, pg2)
    end.
Proof.
  unfold beforeModel, and_then, answered; cbv zeta. simpl route.
  rewrite setupFutureEvents_ext.
  by destruct (fst (super_beforeModel uenv (ext (route pg)))).
Qed.

(** [_getUrlHashData] outside FastBoot. *)
Lemma getUrlHashData_browser cfg uenv pg :
  FastBoot_defined cfg = false →
  _getUrlHashData cfg uenv pg
  = let a := parseHash uenv (enableImpersonation uenv) (ext (route pg)) in
    let pg2 := mkPage (set_ext (snd a) (route pg))
                      (parseHash_calls pg ++ [enableImpersonation uenv])
                      (pushState_calls pg) in
    match fst a with
    | Callback (Some err) parsedPayload =>
        if truthy uenv err then (Failed (Auth0Error err), pg2)
        else (Fulfilled parsedPayload, pg2)
    | Callback None parsedPayload => (Fulfilled parsedPayload, pg2)
    | NoCallback => (Unsettled, pg2)
    end.
Proof. intros Hf. unfold _getUrlHashData. by rewrite Hf. Qed.

(** [_authenticateWithUrlHash] when it does authenticate. *)
Lemma authenticateWithUrlHash_browser cfg uenv data pg :
  FastBoot_defined cfg = false →
  isEmpty uenv data = false →
  _authenticateWithUrlHash cfg uenv data pg
  = let a := authenticate_with uenv hash_authenticator data (ext (route pg)) in
    let pg1 := with_route
                 (set_ext (snd a)
                    (record_call (CallAuthenticate hash_authenticator)
                                 (route pg))) pg in
    match fst a with
    | Ok => _clearUrlHash cfg uenv pg1
    | Err r => (Failed (Outside r), pg1)
    | Silent => (Unsettled, pg1)
    end.
Proof.
  intros Hf Hne. unfold _authenticateWithUrlHash. rewrite Hf, Hne.
  unfold and_then, session_authenticate, answered, hash_authenticator; simpl.
  by destruct (fst (authenticate_with uenv _ data (ext (route pg)))).
Qed.

Lemma authenticateWithUrlHash_skips cfg uenv data pg :
  isEmpty uenv data = true ∨ FastBoot_defined cfg = true →
  _authenticateWithUrlHash cfg uenv data pg = (Fulfilled tt, pg).
Proof.
  intros Hs. unfold _authenticateWithUrlHash.
  destruct Hs as [-> | ->]; [done|]. by rewrite orb_true_r.
Qed.

End UrlHashFacts.

(** X13: [beforeModel] does to the timers what the setup does and nothing
    more: whatever the super method, the hash parser and the session
    answer, the pending timers and the recorded handles after it are
    those the setup leaves, and the only call it can add on the session
    is one [authenticate] with the URL-hash authenticator. It never
    invalidates the session. *)
Theorem beforeModel_schedules_like_setup {D E P R : Type} (cfg : Config)
    (env : Env D) (uenv : UrlEnv D E P R) (pg : Page D) :
  timers (route (snd (beforeModel cfg env uenv pg)))
  = timers (_setupFutureEvents cfg env (route pg))
  ∧ props (route (snd (beforeModel cfg env uenv pg)))
    = props (_setupFutureEvents cfg env (route pg))
  ∧ (calls (route (snd (beforeModel cfg env uenv pg))) = calls (route pg)
     ∨ calls (route (snd (beforeModel cfg env uenv pg)))
       = calls (route pg) ++ [CallAuthenticate hash_authenticator]).
Proof.
  remember (beforeModel cfg env uenv pg) as res eqn:Hres.
  rewrite beforeModel_unfold in Hres; cbv zeta in Hres.
  pose proof (setupFutureEvents_calls cfg env (route pg)) as Hcalls.
  set (w1 := _setupFutureEvents cfg env (route pg)) in *. clearbody w1.
  destruct (super_beforeModel uenv (ext (route pg))) as [[|r|] e1];
    cbn [fst snd] in Hres; [|subst res; simpl; by split; [|split; [|left]]..].
  destruct (FastBoot_defined cfg) eqn:Hf.
  - unfold _getUrlHashData in Hres. rewrite Hf in Hres.
    rewrite authenticateWithUrlHash_skips in Hres by (by right).
    subst res; simpl; by split; [|split; [|left]].
  - rewrite (getUrlHashData_browser cfg uenv _ Hf) in Hres; cbv zeta in Hres.
    simpl route in Hres. simpl ext in Hres.
    assert (Hlogin : ∀ (data : option P) (e2 : Ext D),
              res = _authenticateWithUrlHash cfg uenv data
                      (mkPage (set_ext e2 (set_ext e1 w1))
                              (parseHash_calls pg ++ [enableImpersonation uenv])
                              (pushState_calls pg)) →
              timers (route (snd res)) = timers w1
              ∧ props (route (snd res)) = props w1
              ∧ (calls (route (snd res)) = calls (route pg)
                 ∨ calls (route (snd res))
                   = calls (route pg) ++ [CallAuthenticate hash_authenticator])).
    { clear Hres. intros data e2 Hres.
      destruct (isEmpty uenv data) eqn:Hempty.
      + rewrite authenticateWithUrlHash_skips in Hres by (by left).
        subst res; simpl; by split; [|split; [|left]].
      + rewrite (authenticateWithUrlHash_browser cfg uenv data _ Hf Hempty)
          in Hres.
        cbv zeta in Hres. simpl route in Hres. simpl ext in Hres.
        destruct (authenticate_with uenv hash_authenticator data e2)
          as [[|r|] e3] eqn:Hauth; cbn [fst snd] in Hres.
        * unfold _clearUrlHash in Hres. subst res. cbn [snd].
          destruct (negb (FastBoot_defined cfg) && negb (inTesting cfg)
                    && window_history (window uenv));
            simpl; rewrite Hcalls; by split; [|split; [|right]].
        * subst res; simpl; rewrite Hcalls; by split; [|split; [|right]].
        * subst res; simpl; rewrite Hcalls; by split; [|split; [|right]].
    }
    destruct (parseHash uenv (enableImpersonation uenv) e1)
      as [[[err|] data|] e2] eqn:Hparse; cbn [fst snd] in Hres.
    + destruct (truthy uenv err); [subst res; simpl; by split; [|split; [|left]]|].
      by apply (Hlogin data e2).
    + by apply (Hlogin data e2).
    + subst res; simpl; by split; [|split; [|left]].
Qed.

(** X14: under FastBoot [beforeModel] leaves the page alone: the hash is
    not parsed, the session is not authenticated, the address bar is not
    touched and no timer is scheduled; its promise is that of the super
    method. *)
Theorem beforeModel_under_FastBoot {D E P R : Type} (cfg : Config)
    (env : Env D) (uenv : UrlEnv D E P R) (pg : Page D) :
  FastBoot_defined cfg = true →
  parseHash_calls (snd (beforeModel cfg env uenv pg)) = parseHash_calls pg
  ∧ pushState_calls (snd (beforeModel cfg env uenv pg)) = pushState_calls pg
  ∧ calls (route (snd (beforeModel cfg env uenv pg))) = calls (route pg)
  ∧ timers (route (snd (beforeModel cfg env uenv pg))) = timers (route pg)
  ∧ fst (beforeModel cfg env uenv pg)
    = match fst (super_beforeModel uenv (ext (route pg))) with
      | Ok => Fulfilled tt
      | Err r => Failed (Outside r)
      | Silent => Unsettled
      end.
Proof.
  intros Hf. rewrite beforeModel_unfold; cbv zeta.
  rewrite (setupFutureEvents_suppressed cfg env (route pg)) by (by right).
  destruct (super_beforeModel uenv (ext (route pg))) as [[|r|] e1];
    cbn [fst snd]; [|done..].
  unfold _getUrlHashData. rewrite Hf.
  by rewrite authenticateWithUrlHash_skips by (by right).
Qed.

Lemma beforeModel_under_FastBoot_witness :
  parseHash_calls (snd (beforeModel cfg_fastboot (env_of Resolved)
                          (uenv_of (Callback None (Some "token")) Ok)
                          page_auth)) = []
  ∧ timers (route (snd (beforeModel cfg_fastboot (env_of Resolved)
                          (uenv_of (Callback None (Some "token")) Ok)
                          page_auth))) = [].
Proof.
  pose proof (beforeModel_under_FastBoot cfg_fastboot (env_of Resolved)
                (uenv_of (Callback None (Some "token")) Ok) page_auth
                eq_refl) as H.
  destruct H as (Hparse & _ & _ & Htimers & _).
  split; [exact Hparse|exact Htimers].
Defined.

(** X15: when [parseHash] reports an error, one that is truthy as
    [if (err)] tests it, the promise of [beforeModel] is rejected with
    the [Auth0Error] built from it, also when a payload came along; the
    session is not authenticated and the address bar is not touched. *)
Theorem parseHash_error_rejects_beforeModel {D E P R : Type} (cfg : Config)
    (env : Env D) (uenv : UrlEnv D E P R) (pg : Page D) (e1 e2 : Ext D)
    (err : E) (payload : option P) :
  FastBoot_defined cfg = false →
  super_beforeModel uenv (ext (route pg)) = (Ok, e1) →
  parseHash uenv (enableImpersonation uenv) e1
  = (Callback (Some err) payload, e2) →
  truthy uenv err = true →
  fst (beforeModel cfg env uenv pg) = Failed (Auth0Error err)
  ∧ calls (route (snd (beforeModel cfg env uenv pg))) = calls (route pg)
  ∧ pushState_calls (snd (beforeModel cfg env uenv pg)) = pushState_calls pg
  ∧ parseHash_calls (snd (beforeModel cfg env uenv pg))
    = parseHash_calls pg ++ [enableImpersonation uenv].
Proof.
  intros Hf Hsuper Hparse Htruthy.
  assert (Hrun : beforeModel cfg env uenv pg
                 = (Failed (Auth0Error err),
                    mkPage (set_ext e2 (set_ext e1
                              (_setupFutureEvents cfg env (route pg))))
                           (parseHash_calls pg ++ [enableImpersonation uenv])
                           (pushState_calls pg))).
  { rewrite beforeModel_unfold; cbv zeta. rewrite Hsuper; cbn [fst snd].
    rewrite (getUrlHashData_browser cfg uenv _ Hf); cbv zeta.
    simpl route. simpl ext. rewrite Hparse; cbn [fst snd].
    by rewrite Htruthy. }
  rewrite Hrun; simpl. by rewrite setupFutureEvents_calls.
Qed.

Lemma parseHash_error_rejects_beforeModel_witness :
  fst (beforeModel cfg_on (env_of Resolved)
         (uenv_of (Callback (Some "access_denied") (Some "token")) Ok)
         page_anon)
  = Failed (Auth0Error "access_denied").
Proof.
  apply (parseHash_error_rejects_beforeModel cfg_on (env_of Resolved)
           (uenv_of (Callback (Some "access_denied") (Some "token")) Ok)
           page_anon (ext w_anon) (ext w_anon) "access_denied" (Some "token")
           eq_refl eq_refl eq_refl eq_refl).
Defined.

(** X16: when the hash holds nothing (the parsed payload is [null],
    [undefined] or empty), [beforeModel] resolves without authenticating
    the session and without touching the address bar. *)
Theorem empty_hash_is_ignored {D E P R : Type} (cfg : Config)
    (env : Env D) (uenv : UrlEnv D E P R) (pg : Page D) (e1 e2 : Ext D)
    (data : option P) :
  FastBoot_defined cfg = false →
  super_beforeModel uenv (ext (route pg)) = (Ok, e1) →
  parseHash uenv (enableImpersonation uenv) e1 = (Callback None data, e2) →
  isEmpty uenv data = true →
  fst (beforeModel cfg env uenv pg) = Fulfilled tt
  ∧ calls (route (snd (beforeModel cfg env uenv pg))) = calls (route pg)
  ∧ pushState_calls (snd (beforeModel cfg env uenv pg)) = pushState_calls pg.
Proof.
  intros Hf Hsuper Hparse Hempty.
  assert (Hrun : beforeModel cfg env uenv pg
                 = (Fulfilled tt,
                    mkPage (set_ext e2 (set_ext e1
                              (_setupFutureEvents cfg env (route pg))))
                           (parseHash_calls pg ++ [enableImpersonation uenv])
                           (pushState_calls pg))).
  { rewrite beforeModel_unfold; cbv zeta. rewrite Hsuper; cbn [fst snd].
    rewrite (getUrlHashData_browser cfg uenv _ Hf); cbv zeta.
    simpl route. simpl ext. rewrite Hparse; cbn [fst snd].
    by rewrite authenticateWithUrlHash_skips by (by left). }
  rewrite Hrun; simpl. by rewrite setupFutureEvents_calls.
Qed.

Lemma empty_hash_is_ignored_witness :
  calls (route (snd (beforeModel cfg_on (env_of Resolved)
                       (uenv_of (Callback None None) Ok) page_anon))) = [].
Proof.
  apply (empty_hash_is_ignored cfg_on (env_of Resolved)
           (uenv_of (Callback None None) Ok) page_anon
           (ext w_anon) (ext w_anon) None eq_refl eq_refl eq_refl eq_refl).
Defined.

(** X17: a hash with a payload, parsed without error, is used to
    authenticate the session once with the URL-hash authenticator; when
    that succeeds the promise resolves and, outside test and where
    [window.history] is there, one [pushState] sets the address to
    pathname and search, without the hash. Under test, or without
    [window.history], the address bar is not touched. *)
Theorem hash_login_clears_the_hash {D E P R : Type} (cfg : Config)
    (env : Env D) (uenv : UrlEnv D E P R) (pg : Page D) (e1 e2 e3 : Ext D)
    (data : option P) :
  FastBoot_defined cfg = false →
  super_beforeModel uenv (ext (route pg)) = (Ok, e1) →
  parseHash uenv (enableImpersonation uenv) e1 = (Callback None data, e2) →
  isEmpty uenv data = false →
  authenticate_with uenv hash_authenticator data e2 = (Ok, e3) →
  fst (beforeModel cfg env uenv pg) = Fulfilled tt
  ∧ calls (route (snd (beforeModel cfg env uenv pg)))
    = calls (route pg) ++ [CallAuthenticate hash_authenticator]
  ∧ pushState_calls (snd (beforeModel cfg env uenv pg))
    = pushState_calls pg
      ++ (if negb (inTesting cfg) && window_history (window uenv)
          then [("", document_title (window uenv),
                 location_pathname (window uenv)
                 +:+ location_search (window uenv))]
          else [])
  ∧ ext (route (snd (beforeModel cfg env uenv pg))) = e3.
Proof.
  intros Hf Hsuper Hparse Hempty Hauth.
  assert (Hrun : beforeModel cfg env uenv pg
                 = _clearUrlHash cfg uenv
                     (mkPage (set_ext e3
                                (record_call (CallAuthenticate hash_authenticator)
                                   (set_ext e2 (set_ext e1
                                      (_setupFutureEvents cfg env (route pg))))))
                             (parseHash_calls pg ++ [enableImpersonation uenv])
                             (pushState_calls pg))).
  { rewrite beforeModel_unfold; cbv zeta. rewrite Hsuper; cbn [fst snd].
    rewrite (getUrlHashData_browser cfg uenv _ Hf); cbv zeta.
    simpl route. simpl ext. rewrite Hparse; cbn [fst snd].
    rewrite (authenticateWithUrlHash_browser cfg uenv data _ Hf Hempty).
    cbv zeta. simpl route. simpl ext. by rewrite Hauth. }
  rewrite Hrun. unfold _clearUrlHash. rewrite Hf. cbn [fst snd negb andb].
  pose proof (setupFutureEvents_calls cfg env (route pg)) as Hcalls.
  destruct (negb (inTesting cfg) && window_history (window uenv)); simpl;
    rewrite Hcalls, ?app_nil_r; done.
Qed.

(** Back from the provider at [/callback?x=1#...]: one [pushState] to
    [/callback?x=1]. *)
Lemma hash_login_clears_the_hash_witness :
  pushState_calls (snd (beforeModel cfg_on (env_of Resolved)
                          (uenv_of (Callback None (Some "token")) Ok)
                          page_anon))
  = [("", "App", "/callback?x=1")].
Proof.
  apply (hash_login_clears_the_hash cfg_on (env_of Resolved)
           (uenv_of (Callback None (Some "token")) Ok) page_anon
           (ext w_anon) (ext w_anon) (ext w_anon) (Some "token")
           eq_refl eq_refl eq_refl eq_refl eq_refl).
Defined.

(** X18: when authenticating with the hash fails, the promise of
    [beforeModel] is rejected with the session's reason and the hash
    stays in the address bar. *)
Theorem failed_hash_login_keeps_the_hash {D E P R : Type} (cfg : Config)
    (env : Env D) (uenv : UrlEnv D E P R) (pg : Page D) (e1 e2 e3 : Ext D)
    (data : option P) (r : R) :
  FastBoot_defined cfg = false →
  super_beforeModel uenv (ext (route pg)) = (Ok, e1) →
  parseHash uenv (enableImpersonation uenv) e1 = (Callback None data, e2) →
  isEmpty uenv data = false →
  authenticate_with uenv hash_authenticator data e2 = (Err r, e3) →
  fst (beforeModel cfg env uenv pg) = Failed (Outside r)
  ∧ calls (route (snd (beforeModel cfg env uenv pg)))
    = calls (route pg) ++ [CallAuthenticate hash_authenticator]
  ∧ pushState_calls (snd (beforeModel cfg env uenv pg)) = pushState_calls pg.
Proof.
  intros Hf Hsuper Hparse Hempty Hauth.
  assert (Hrun : beforeModel cfg env uenv pg
                 = (Failed (Outside r),
                    mkPage (set_ext e3
                              (record_call (CallAuthenticate hash_authenticator)
                                 (set_ext e2 (set_ext e1
                                    (_setupFutureEvents cfg env (route pg))))))
                           (parseHash_calls pg ++ [enableImpersonation uenv])
                           (pushState_calls pg))).
  { rewrite beforeModel_unfold; cbv zeta. rewrite Hsuper; cbn [fst snd].
    rewrite (getUrlHashData_browser cfg uenv _ Hf); cbv zeta.
    simpl route. simpl ext. rewrite Hparse; cbn [fst snd].
    rewrite (authenticateWithUrlHash_browser cfg uenv data _ Hf Hempty).
    cbv zeta. simpl route. simpl ext. by rewrite Hauth. }
  rewrite Hrun; simpl. by rewrite setupFutureEvents_calls.
Qed.

Lemma failed_hash_login_keeps_the_hash_witness :
  fst (beforeModel cfg_on (env_of Resolved)
         (uenv_of (Callback None (Some "token")) (Err "invalid_token"))
         page_anon)
  = Failed (Outside "invalid_token")
  ∧ pushState_calls (snd (beforeModel cfg_on (env_of Resolved)
         (uenv_of (Callback None (Some "token")) (Err "invalid_token"))
         page_anon)) = [].
Proof.
  pose proof (failed_hash_login_keeps_the_hash cfg_on (env_of Resolved)
                (uenv_of (Callback None (Some "token")) (Err "invalid_token"))
                page_anon (ext w_anon) (ext w_anon) (ext w_anon)
                (Some "token") "invalid_token"
                eq_refl eq_refl eq_refl eq_refl eq_refl) as H.
  destruct H as (Hfst & _ & Hpush).
  split; [exact Hfst|exact Hpush].
Defined.

(** X19: [beforeModel] rewrites the address at most once, and only after
    the session has been authenticated with the hash: either no
    [pushState] is added, or exactly one is, to pathname and search, and
    then the route is neither under test nor under FastBoot,
    [window.history] is there, the promise is resolved and the session
    has been asked to authenticate with the URL-hash authenticator. *)
Theorem address_is_rewritten_only_after_login {D E P R : Type}
    (cfg : Config) (env : Env D) (uenv : UrlEnv D E P R) (pg : Page D) :
  pushState_calls (snd (beforeModel cfg env uenv pg)) = pushState_calls pg
  ∨ pushState_calls (snd (beforeModel cfg env uenv pg))
    = pushState_calls pg
      ++ [("", document_title (window uenv),
           location_pathname (window uenv) +:+ location_search (window uenv))]
    ∧ inTesting cfg = false
    ∧ FastBoot_defined cfg = false
    ∧ window_history (window uenv) = true
    ∧ fst (beforeModel cfg env uenv pg) = Fulfilled tt
    ∧ calls (route (snd (beforeModel cfg env uenv pg)))
      = calls (route pg) ++ [CallAuthenticate hash_authenticator].
Proof.
  remember (beforeModel cfg env uenv pg) as res eqn:Hres.
  rewrite beforeModel_unfold in Hres; cbv zeta in Hres.
  pose proof (setupFutureEvents_calls cfg env (route pg)) as Hcalls.
  set (w1 := _setupFutureEvents cfg env (route pg)) in *. clearbody w1.
  destruct (super_beforeModel uenv (ext (route pg))) as [[|r|] e1];
    cbn [fst snd] in Hres; [|subst res; simpl; by left..].
  destruct (FastBoot_defined cfg) eqn:Hf.
  - unfold _getUrlHashData in Hres. rewrite Hf in Hres.
    rewrite authenticateWithUrlHash_skips in Hres by (by right).
    subst res; simpl; by left.
  - rewrite (getUrlHashData_browser cfg uenv _ Hf) in Hres; cbv zeta in Hres.
    simpl route in Hres. simpl ext in Hres.
    assert (Hlogin : ∀ (data : option P) (e2 : Ext D),
              res = _authenticateWithUrlHash cfg uenv data
                      (mkPage (set_ext e2 (set_ext e1 w1))
                              (parseHash_calls pg ++ [enableImpersonation uenv])
                              (pushState_calls pg)) →
              pushState_calls (snd res) = pushState_calls pg
              ∨ pushState_calls (snd res)
                = pushState_calls pg
                  ++ [("", document_title (window uenv),
                       location_pathname (window uenv)
                       +:+ location_search (window uenv))]
                ∧ inTesting cfg = false
                ∧ false = false
                ∧ window_history (window uenv) = true
                ∧ fst res = Fulfilled tt
                ∧ calls (route (snd res))
                  = calls (route pg) ++ [CallAuthenticate hash_authenticator]).
    { clear Hres. intros data e2 Hres.
      destruct (isEmpty uenv data) eqn:Hempty.
      + rewrite authenticateWithUrlHash_skips in Hres by (by left).
        subst res; simpl; by left.
      + rewrite (authenticateWithUrlHash_browser cfg uenv data _ Hf Hempty)
          in Hres.
        cbv zeta in Hres. simpl route in Hres. simpl ext in Hres.
        destruct (authenticate_with uenv hash_authenticator data e2)
          as [[|r|] e3] eqn:Hauth; cbn [fst snd] in Hres.
        * unfold _clearUrlHash in Hres. rewrite Hf in Hres.
          cbn [negb andb] in Hres.
          destruct (inTesting cfg); [subst res; by left|].
          destruct (window_history (window uenv)); [|subst res; by left].
          subst res. right. simpl. by rewrite Hcalls.
        * subst res; by left.
        * subst res; by left.
    }
    destruct (parseHash uenv (enableImpersonation uenv) e1)
      as [[[err|] data|] e2] eqn:Hparse; cbn [fst snd] in Hres.
    + destruct (truthy uenv err); [subst res; simpl; by left|].
      by apply (Hlogin data e2).
    + by apply (Hlogin data e2).
    + subst res; simpl; by left.
Qed.

(** ** The memoised remaining time at work *)

(** The route of [w_late]: the setup ran at second 100 with 60 seconds
    left; at second 170 the expire timer fires and the hook rejects. The
    expire job is rescheduled 60000 ms ahead, the memoised value. *)
Example rejected_hook_reuses_the_memo :
  timers (run cfg_plain env_hook_rejects [OpFire 0%nat] w_late)
  = [mkTimer 1 ProcessSessionExpired 60000].
Proof. by vm_compute. Qed.

(** Once the session has been set, the property is computed anew. *)
Example set_session_forgets_the_memo :
  fst (read_jwtRemainingTimeInSeconds (env_of Resolved)
         (set_ext (mkExt (mkSession true 200 1) 170) w_late)) = 30.
Proof. by vm_compute. Qed.
